(** * MinROS node of the Septentrio GNSS driver: a shallow embedding

    The development follows [src/MinROS/nodelets/minros_node.cpp] and
    [include/MinROS/nodelets/minros_node.hpp].  The namespaces [boost],
    [ros], [io_comm_mosaic] and [minros_node] become modules of the same
    name.  Mutable members of [MinROSNode], the globals
    [nh] and [IO], and the function-local static publishers of [publish] live
    in one explicit [State] record that every operation threads through a
    small state-and-exception monad.  Calls to [ROS_DEBUG] only write to the
    log and are left out. *)

From stdpp Require Import base strings gmap list pretty.
From Stdlib Require Import Ascii ZArith Lia.

Local Open Scope string_scope.
Local Open Scope Z_scope.
Local Open Scope list_scope.

(** ** Strings

    [std::string] is a sequence of bytes; Rocq's [string] is the same thing.
    The functions below are the few string operations the regular expression
    engine and the frame decoder need. *)

Fixpoint strip_prefix (p s : string) : option string :=
  match p with
  | EmptyString => Some s
  | String a p' =>
      match s with
      | EmptyString => None
      | String b s' => if Ascii.eqb a b then strip_prefix p' s' else None
      end
  end.

Fixpoint string_take (n : nat) (s : string) : string :=
  match n, s with
  | S n', String a s' => String a (string_take n' s')
  | _, _ => EmptyString
  end.

(** The characters of [s] that were consumed to arrive at its suffix [s']. *)
Definition consumed (s s' : string) : string :=
  string_take (String.length s - String.length s') s.

Fixpoint string_forall (P : ascii -> bool) (s : string) : bool :=
  match s with
  | EmptyString => true
  | String a s' => P a && string_forall P s'
  end.

(** ** boost::regex

    A backtracking matcher in the Perl style that Boost.Regex implements:
    alternatives are tried left to right, [+] is greedy and gives characters
    back one at a time, and every marked sub-expression records what it
    consumed.  Only the constructs that occur in the pattern of
    [InitializeIO] are provided. *)

Module boost.

Inductive char_class : Type :=
| AnyChar     (* [.]  *)
| DigitChar.  (* [\d] *)

Inductive regex : Type :=
| Lit (s : string)
| Plus (c : char_class)
| Alt (r1 r2 : regex)
| Seq (r1 r2 : regex)
| Group (n : nat) (r : regex).

Definition is_digit (a : ascii) : bool :=
  let n := nat_of_ascii a in (48 <=? n)%nat && (n <=? 57)%nat.

Definition in_class (c : char_class) (a : ascii) : bool :=
  match c with
  | AnyChar => true
  | DigitChar => is_digit a
  end.

(** [match_results]: sub-match [n] is the text of marked group [n];
    sub-match 0 is the whole match. *)
Abbreviation smatch := (gmap nat string).

Fixpoint plus_loop {R : Type} (c : char_class) (s : string)
    (k : string -> option R) : option R :=
  match s with
  | EmptyString => None
  | String a s' =>
      if in_class c a then
        match plus_loop c s' k with
        | Some r => Some r
        | None => k s'
        end
      else None
  end.

Fixpoint run (r : regex) (s : string) (m : smatch)
    (k : string -> smatch -> option smatch) : option smatch :=
  match r with
  | Lit p =>
      match strip_prefix p s with
      | Some s' => k s' m
      | None => None
      end
  | Plus c => plus_loop c s (fun s' => k s' m)
  | Alt r1 r2 =>
      match run r1 s m k with
      | Some m' => Some m'
      | None => run r2 s m k
      end
  | Seq r1 r2 => run r1 s m (fun s' m' => run r2 s' m' k)
  | Group n r1 => run r1 s m (fun s' m' => k s' (<[n := consumed s s']> m'))
  end.

(** [regex_match] succeeds only when the pattern covers the complete
    string. *)
Definition regex_match (s : string) (r : regex) : option smatch :=
  run r s ∅ (fun s' m =>
    match s' with
    | EmptyString => Some (<[0%nat := s]> m)
    | _ => None
    end).

(** [match[n]]: an unmatched sub-expression converts to the empty string. *)
Definition sub_match (m : smatch) (n : nat) : string :=
  default "" (m !! n).

(** [boost::posix_time]: a [ptime] is taken as the microseconds elapsed
    since midnight of a fixed day, a [time_duration] as a number of
    microseconds. *)
Definition ticks_per_second : Z := 1000000.
Definition ticks_per_day : Z := 86400 * ticks_per_second.

(** [ptime::time_of_day]: the time elapsed since midnight. *)
Definition time_of_day (t : Z) : Z := t mod ticks_per_day.

(** [time_duration::total_seconds]: whole seconds, the fraction dropped. *)
Definition total_seconds (d : Z) : Z := Z.quot d ticks_per_second.

End boost.

(** The pattern ["(tcp|udp)://(.+):(\\d+)"] of [InitializeIO]. *)
Definition device_regex : boost.regex :=
  boost.Seq (boost.Group 1 (boost.Alt (boost.Lit "tcp") (boost.Lit "udp")))
  (boost.Seq (boost.Lit "://")
  (boost.Seq (boost.Group 2 (boost.Plus boost.AnyChar))
  (boost.Seq (boost.Lit ":")
             (boost.Group 3 (boost.Plus boost.DigitChar))))).

(** The part of the pattern after [://], as the matcher runs it once the
    protocol [proto] is known and [rest] is what follows [://]. *)
Definition after_scheme (d proto rest : string) (s1 : string)
    : option boost.smatch :=
  match strip_prefix ":" s1 with
  | Some s2 =>
      boost.plus_loop boost.DigitChar s2
        (fun s3 =>
           match s3 with
           | "" => Some (<[0%nat := d]>
                        (<[3%nat := consumed s2 s3]>
                        (<[2%nat := consumed rest s1]>
                        (<[1%nat := proto]> ∅))))
           | _ => None
           end)
  | None => None
  end.

(** The pattern behind the protocol, run on what follows the protocol [s']
    in the descriptor [d]. *)
Definition scheme_tail (d s' : string) : option boost.smatch :=
  match strip_prefix "://" s' with
  | Some s0 =>
      boost.plus_loop boost.AnyChar s0 (after_scheme d (consumed d s') s0)
  | None => None
  end.

(** What the pattern accepts, said without the matcher: a recognised
    protocol, a non-empty host and a non-empty decimal port. *)
Definition network_descriptor (d : string) : Prop :=
  exists proto host port,
    (proto = "tcp" \/ proto = "udp") /\ host <> "" /\ port <> "" /\
    string_forall boost.is_digit port = true /\
    d = proto +:+ "://" +:+ host +:+ ":" +:+ port.

(** Modelled from the spec: the other kind of connection descriptor is a
    filesystem device path.  Nothing in the sources says what makes one
    valid; it is taken to be a path from the root, like the default
    [/dev/ttyACM0]. *)
Definition device_path (d : string) : Prop :=
  exists rest, d = "/" +:+ rest.

(** A malformed descriptor is neither of the two. *)
Definition malformed (d : string) : Prop :=
  ~ device_path d /\ ~ network_descriptor d.

(** ** C++ integer types and conversions *)

Module cpp.

(** An integer type is its signedness and its width in bits. *)
Record int_type : Type := { is_signed : bool; width : Z }.

Definition int : int_type := {| is_signed := true; width := 32 |}.
Definition uint32_t : int_type := {| is_signed := false; width := 32 |}.

(** [std::numeric_limits<U>::lowest()] and [::max()]. *)
Definition lowest (U : int_type) : Z :=
  if is_signed U then - 2 ^ (width U - 1) else 0.

Definition max (U : int_type) : Z :=
  if is_signed U then 2 ^ (width U - 1) - 1 else 2 ^ width U - 1.

(** The conversion [(U) v]: the value congruent to [v] modulo [2^width]
    that [U] can represent. *)
Definition cast (U : int_type) (v : Z) : Z :=
  if is_signed U
  then (v + 2 ^ (width U - 1)) mod 2 ^ width U - 2 ^ (width U - 1)
  else v mod 2 ^ width U.

Definition uint8_t : int_type := {| is_signed := false; width := 8 |}.
Definition int16_t : int_type := {| is_signed := true; width := 16 |}.
Definition uint16_t : int_type := {| is_signed := false; width := 16 |}.
Definition int64_t : int_type := {| is_signed := true; width := 64 |}.
Definition uint64_t : int_type := {| is_signed := false; width := 64 |}.

(** Integral promotion: anything narrower than [int] becomes [int]. *)
Definition promote (A : int_type) : int_type :=
  if width A <? 32 then int else A.

(** The usual arithmetic conversions: the type in which a binary operator
    with operands of types [A] and [B] works.  With equal signedness the
    wider type wins; otherwise the unsigned one does unless the signed one is
    wider. *)
Definition common_type (A B : int_type) : int_type :=
  let A' := promote A in
  let B' := promote B in
  if Bool.eqb (is_signed A') (is_signed B') then
    if width A' <? width B' then B' else A'
  else
    let s := if is_signed A' then A' else B' in
    let u := if is_signed A' then B' else A' in
    if width s <=? width u then u else s.

(** [a < b] and [a > b] for [a] of type [A] and [b] of type [B]. *)
Definition lt (A B : int_type) (a b : Z) : bool :=
  cast (common_type A B) a <? cast (common_type A B) b.

Definition gt (A B : int_type) (a b : Z) : bool :=
  cast (common_type A B) a >? cast (common_type A B) b.

(** [std::string::c_str] read as a C string, which is how the text of a
    [std::runtime_error] comes back from [what()]: it ends before the first
    NUL byte. *)
Fixpoint c_str (s : string) : string :=
  match s with
  | EmptyString => EmptyString
  | String c s' =>
      if Ascii.eqb c Ascii.zero then EmptyString else String c (c_str s')
  end.

(** [stream << v] for [v] of type [A]: the 8-bit types are character types
    and are written as the character with that code, the others in
    decimal. *)
Definition show (A : int_type) (v : Z) : string :=
  if width A =? 8 then String (ascii_of_N (Z.to_N (v mod 256))) ""
  else pretty v.

End cpp.

(** ** The part of roscpp the node uses *)

Module ros.

(** Values held by the parameter server.  Doubles are not modelled, and
    with them the conversion [getParam] makes from a double to an [int]. *)
Inductive XmlRpcValue : Type :=
| TypeBoolean (b : bool)
| TypeInt (i : Z)
| TypeString (s : string).

Abbreviation param_server := (gmap string XmlRpcValue).

(** [NodeHandle::getParam], on the values modelled: found if the key is set
    and holds a value of the requested type. *)
Definition getParam_int (ps : param_server) (key : string) : option Z :=
  match ps !! key with
  | Some (TypeInt i) => Some i
  | _ => None
  end.

Definition getParam_bool (ps : param_server) (key : string) : option bool :=
  match ps !! key with
  | Some (TypeBoolean b) => Some b
  | _ => None
  end.

Definition getParam_string (ps : param_server) (key : string)
    : option string :=
  match ps !! key with
  | Some (TypeString s) => Some s
  | _ => None
  end.

(** [NodeHandle::param(key, out, default_val)]. *)
Definition param {A : Type} (found : option A) (default_val : A) : A :=
  default default_val found.

(** [ros::Timer].  A default-constructed timer has no implementation
    behind it: it never fires and [stop] does nothing to it. *)
Inductive Timer : Type :=
| TimerNull
| TimerRunning
| TimerStopped.

Definition stop (t : Timer) : Timer :=
  match t with
  | TimerNull => TimerNull
  | TimerRunning | TimerStopped => TimerStopped
  end.

Definition running (t : Timer) : bool :=
  match t with
  | TimerRunning => true
  | _ => false
  end.

End ros.

(** ** io_comm_mosaic: the communication core

    [MinROS/communication/communication_core.hpp] and the files behind it are
    not part of the sources at hand; what the node needs from them is
    modelled here from the specification. *)

Module io_comm_mosaic.

Section CallbackHandlers.
Context {Handler : Type}.

(** Modelled from the spec: the class [CallbackHandlers] (missing), whose
    member [callbacks_] the node declares as a
    [std::multimap<std::string, shared_ptr<CallbackHandler>>]: a mapping
    from identifier to an ordered list of handler entries.  The entries
    are kept in insertion order. *)
Definition CallbackMap : Type := list (string * Handler).

(** Modelled from the spec: [CallbackHandlers::insert] (missing) appends
    a handler for that identifier and hands back the map. *)
Definition insert (key : string) (h : Handler) (callbacks_ : CallbackMap)
    : CallbackMap :=
  callbacks_ ++ [(key, h)].

(** The handlers registered for one identifier, oldest first
    ([equal_range]). *)
Fixpoint handlers_for (key : string) (callbacks_ : CallbackMap)
    : list Handler :=
  match callbacks_ with
  | [] => []
  | (k, h) :: rest =>
      if decide (k = key) then h :: handlers_for key rest
      else handlers_for key rest
  end.

(** Modelled from the spec: [count(identifier)] (missing). *)
Definition count (key : string) (callbacks_ : CallbackMap) : nat :=
  length (handlers_for key callbacks_).

(** Modelled from the spec: [dispatch(identifier, payload)] (missing)
    invokes, in insertion order, every handler registered for that
    identifier, passing each the same payload.  The result is the list
    of invocations it makes. *)
Definition dispatch {Payload : Type} (key : string) (payload : Payload)
    (callbacks_ : CallbackMap) : list (Handler * Payload) :=
  map (fun h => (h, payload)) (handlers_for key callbacks_).

End CallbackHandlers.

Arguments CallbackMap : clear implicits.

(** [Comm_IO]: [handlers_] stands for the multimap [handlers_.callbacks_],
    the one member of the handlers the node touches; [serial_attempts]
    counts the calls of [InitializeSerial] made so far. *)
Record Comm_IO (Handler : Type) : Type := {
  handlers_ : CallbackMap Handler;
  serial_attempts : nat
}.
Arguments handlers_ {Handler}.
Arguments serial_attempts {Handler}.

(** [Comm_IO::get_handlers]. *)
Definition get_handlers {Handler : Type} (io : Comm_IO Handler)
    : CallbackMap Handler :=
  handlers_ io.

End io_comm_mosaic.

(** ** minros_node: the node itself *)

Module minros_node.

(** Queue size for ROS publishers. *)
Definition ROSQueueSize : Z := 1.

(** A decoded receiver message; its contents are opaque to the node. *)
Definition Message : Type := string.

(** The only kind of callback the node builds:
    [boost::bind(publish<MessageT>, _1, topic)]. *)
Inductive Callback : Type :=
| bind_publish (MessageT : string) (topic : string).

(** The message type [nmea_msgs::Gpgga], by name. *)
Definition Gpgga : string := "nmea_msgs::Gpgga".

(** What the node does to the world outside it, in order. *)
Inductive Event : Type :=
| EInitializeSerial (port : string) (baudrate : Z) (opened : bool)
| ETimerStop
| EAdvertise (MessageT : string) (topic : string) (queue_size : Z)
| EPublish (MessageT : string) (topic : string) (m : Message).

Record State : Type := {
  (* the receiver side: whether the k-th attempt to open a port succeeds *)
  serial_outcome : nat -> string -> Z -> bool;
  (* globals: the parameters behind [nh], [IO], and the static publisher
     of every instance of [publish] *)
  nh : ros.param_server;
  IO : io_comm_mosaic.Comm_IO Callback;
  publishers : gmap string string;
  (* members of MinROSNode *)
  device_ : string;
  baudrate_ : Z;
  reconnect_timer_ : ros.Timer;
  connected_ : bool;
  publish_gpgga_ : bool;
  (* everything done so far *)
  trace : list Event
}.

Definition set_IO (v : io_comm_mosaic.Comm_IO Callback) (st : State) : State :=
  {| serial_outcome := serial_outcome st; nh := nh st; IO := v;
     publishers := publishers st; device_ := device_ st;
     baudrate_ := baudrate_ st; reconnect_timer_ := reconnect_timer_ st;
     connected_ := connected_ st; publish_gpgga_ := publish_gpgga_ st;
     trace := trace st |}.

Definition set_publishers (v : gmap string string) (st : State) : State :=
  {| serial_outcome := serial_outcome st; nh := nh st; IO := IO st;
     publishers := v; device_ := device_ st;
     baudrate_ := baudrate_ st; reconnect_timer_ := reconnect_timer_ st;
     connected_ := connected_ st; publish_gpgga_ := publish_gpgga_ st;
     trace := trace st |}.

Definition set_device_ (v : string) (st : State) : State :=
  {| serial_outcome := serial_outcome st; nh := nh st; IO := IO st;
     publishers := publishers st; device_ := v;
     baudrate_ := baudrate_ st; reconnect_timer_ := reconnect_timer_ st;
     connected_ := connected_ st; publish_gpgga_ := publish_gpgga_ st;
     trace := trace st |}.

Definition set_baudrate_ (v : Z) (st : State) : State :=
  {| serial_outcome := serial_outcome st; nh := nh st; IO := IO st;
     publishers := publishers st; device_ := device_ st;
     baudrate_ := v; reconnect_timer_ := reconnect_timer_ st;
     connected_ := connected_ st; publish_gpgga_ := publish_gpgga_ st;
     trace := trace st |}.

Definition set_reconnect_timer_ (v : ros.Timer) (st : State) : State :=
  {| serial_outcome := serial_outcome st; nh := nh st; IO := IO st;
     publishers := publishers st; device_ := device_ st;
     baudrate_ := baudrate_ st; reconnect_timer_ := v;
     connected_ := connected_ st; publish_gpgga_ := publish_gpgga_ st;
     trace := trace st |}.

Definition set_connected_ (v : bool) (st : State) : State :=
  {| serial_outcome := serial_outcome st; nh := nh st; IO := IO st;
     publishers := publishers st; device_ := device_ st;
     baudrate_ := baudrate_ st; reconnect_timer_ := reconnect_timer_ st;
     connected_ := v; publish_gpgga_ := publish_gpgga_ st;
     trace := trace st |}.

Definition set_publish_gpgga_ (v : bool) (st : State) : State :=
  {| serial_outcome := serial_outcome st; nh := nh st; IO := IO st;
     publishers := publishers st; device_ := device_ st;
     baudrate_ := baudrate_ st; reconnect_timer_ := reconnect_timer_ st;
     connected_ := connected_ st; publish_gpgga_ := v;
     trace := trace st |}.

Definition emit (e : Event) (st : State) : State :=
  {| serial_outcome := serial_outcome st; nh := nh st; IO := IO st;
     publishers := publishers st; device_ := device_ st;
     baudrate_ := baudrate_ st; reconnect_timer_ := reconnect_timer_ st;
     connected_ := connected_ st; publish_gpgga_ := publish_gpgga_ st;
     trace := trace st ++ [e] |}.

(** *** Computations: state passing with [std::runtime_error] *)

Inductive result (A : Type) : Type :=
| Ok (a : A)
| Throw (what : string).
Arguments Ok {A} a.
Arguments Throw {A} what.

Definition M (A : Type) : Type := State -> result A * State.

Definition ret {A : Type} (a : A) : M A := fun st => (Ok a, st).

Definition bind {A B : Type} (m : M A) (k : A -> M B) : M B :=
  fun st =>
    match m st with
    | (Ok a, st') => k a st'
    | (Throw e, st') => (Throw e, st')
    end.

Definition throw {A : Type} (what : string) : M A :=
  fun st => (Throw what, st).

Definition gets {A : Type} (f : State -> A) : M A :=
  fun st => (Ok (f st), st).

Definition modify (f : State -> State) : M unit :=
  fun st => (Ok tt, f st).

Notation "'do' x <- m ; k" := (bind m (fun x => k))
  (at level 10, x name, m at level 100, k at level 200,
   format "'[v' 'do'  x  <-  m ; '/' k ']'").
Notation "m ;; k" := (bind m (fun _ => k))
  (at level 100, k at level 200, right associativity).

(** *** The header: [publish], [checkRange], [GetROSInt] *)

(** The function-local [static ros::Publisher publisher] of
    [publish<MessageT>]: its initialiser [nh->advertise<MessageT>(topic,
    ROSQueueSize)] runs the first time control passes through the
    declaration, once per instance of the template.  A publisher is
    represented by the topic it was advertised on. *)
Definition static_publisher (MessageT topic : string) : M string :=
  do ps <- gets publishers;
  match ps !! MessageT with
  | Some publisher => ret publisher
  | None =>
      modify (emit (EAdvertise MessageT topic ROSQueueSize));;
      modify (set_publishers (<[MessageT := topic]> ps));;
      ret topic
  end.

Definition publish (MessageT : string) (m : Message) (topic : string)
    : M unit :=
  do publisher <- static_publisher MessageT topic;
  modify (emit (EPublish MessageT publisher m)).

(** [checkRange(val, min, max, name)] on values: both sides of each
    comparison have the same type at the call in [GetROSInt], so they are
    compared as the numbers they are. *)
Definition checkRange (val min max : Z) (name : string) : M unit :=
  if (val <? min) || (val >? max) then
    throw ("Invalid settings: " +:+ name +:+ " must be in range ["
           +:+ pretty min +:+ ", " +:+ pretty max +:+ "].")
  else ret tt.

(** [GetROSInt(key, u)]: the result is [Some v] when the function returns
    true after storing [v] in [u], and [None] when it returns false and
    leaves [u] alone. *)
Definition GetROSInt (U : cpp.int_type) (key : string) : M (option Z) :=
  do ps <- gets nh;
  match ros.getParam_int ps key with
  | None => ret None
  | Some param =>
      let min := cpp.lowest U in
      let max := cpp.max U in
      checkRange (cpp.cast U param) min max key;;
      ret (Some (cpp.cast U param))
  end.

(** [GetROSInt(key, u, default_val)], with [default_val] an [int]. *)
Definition GetROSInt_default (U : cpp.int_type) (key : string)
    (default_val : Z) : M Z :=
  do found <- GetROSInt U key;
  match found with
  | Some u => ret u
  | None => ret (cpp.cast U default_val)
  end.

(** *** The class [MinROSNode] *)

Definition GetROSParams : M unit :=
  do ps <- gets nh;
  modify (set_device_
            (ros.param (ros.getParam_string ps "device") "/dev/ttyACM0"));;
  do baud <- GetROSInt_default cpp.uint32_t "serial/baudrate" 115200;
  modify (set_baudrate_ baud).

(** Modelled from the spec: [Comm_IO::InitializeSerial] (missing) makes one
    synchronous attempt to open the named device at a baud rate, without
    retries of its own, and reports whether it succeeded.  Whether it does
    is up to the world: [serial_outcome]. *)
Definition InitializeSerial (port : string) (baudrate : Z) : M bool :=
  do io <- gets IO;
  do outcome <- gets serial_outcome;
  let opened := outcome (io_comm_mosaic.serial_attempts io) port baudrate in
  modify (set_IO
            {| io_comm_mosaic.handlers_ := io_comm_mosaic.handlers_ io;
               io_comm_mosaic.serial_attempts :=
                 S (io_comm_mosaic.serial_attempts io) |});;
  modify (emit (EInitializeSerial port baudrate opened));;
  ret opened.

Definition InitializeIO : M unit :=
  do device <- gets device_;
  match boost.regex_match device device_regex with
  | Some match_ =>
      let proto := boost.sub_match match_ 1 in
      if decide (proto = "tcp") then
        ret tt  (* To be written *)
      else
        throw ("Protocol '" +:+ proto +:+ "' is unsupported")
  | None =>
      do baud <- gets baudrate_;
      InitializeSerial device baud;;
      ret tt
  end.

Definition Reconnect : M unit :=
  do device <- gets device_;
  do baud <- gets baudrate_;
  do opened <- InitializeSerial device baud;
  (if opened then modify (set_connected_ true) else ret tt);;
  do connected <- gets connected_;
  if connected then
    modify (fun st =>
              set_reconnect_timer_ (ros.stop (reconnect_timer_ st)) st);;
    modify (emit ETimerStop)
  else ret tt.

Definition Subscribe : M unit :=
  do ps <- gets nh;
  modify (set_publish_gpgga_
            (ros.param (ros.getParam_bool ps "publish/gpgga") true));;
  do publish_gpgga <- gets publish_gpgga_;
  if publish_gpgga then
    do io <- gets IO;
    modify (set_IO
              {| io_comm_mosaic.handlers_ :=
                   io_comm_mosaic.insert "$GPGGA"
                     (bind_publish Gpgga "/gpgga")
                     (io_comm_mosaic.get_handlers io);
                 io_comm_mosaic.serial_attempts :=
                   io_comm_mosaic.serial_attempts io |})
  else ret tt.

(** The constructor, up to the call of [ros::spin], which does not
    return.  [StringValues_Initialize] belongs to the communication core
    and touches nothing modelled here. *)
Definition MinROSNode : M unit :=
  GetROSParams;;
  InitializeIO;;
  Subscribe.

(** A node object before its constructor body runs, in a process where
    nothing has been published yet.  [connected_] has the initialiser
    [false]; [reconnect_timer_] is default-constructed; the other members
    are written before they are read. *)
Definition fresh (outcome : nat -> string -> Z -> bool)
    (params : ros.param_server) : State :=
  {| serial_outcome := outcome; nh := params;
     IO := {| io_comm_mosaic.handlers_ := [];
              io_comm_mosaic.serial_attempts := 0 |};
     publishers := ∅; device_ := ""; baudrate_ := 0;
     reconnect_timer_ := ros.TimerNull; connected_ := false;
     publish_gpgga_ := false; trace := [] |}.

(** *** How the node is driven *)

(** One period of [reconnect_timer_] elapsing: the callback runs only if
    the timer is running. *)
Definition timer_fires : M unit :=
  do t <- gets reconnect_timer_;
  if ros.running t then Reconnect else ret tt.

(** Running a callback of the node on a message: for [bind_publish] that
    is the call [publish<MessageT>(m, topic)]. *)
Definition invoke (inv : Callback * Message) : M unit :=
  match inv with
  | (bind_publish MessageT topic, m) => publish MessageT m topic
  end.

Fixpoint invoke_all (invs : list (Callback * Message)) : M unit :=
  match invs with
  | [] => ret tt
  | inv :: rest => invoke inv;; invoke_all rest
  end.

(** The registry handling one decoded message with a given identifier. *)
Definition handle (key : string) (m : Message) : M unit :=
  do io <- gets IO;
  invoke_all (io_comm_mosaic.dispatch key m (io_comm_mosaic.get_handlers io)).

(** The operations that can run on a node, for statements about every
    way of driving it. *)
Inductive Op : Type :=
| OpGetROSParams
| OpInitializeIO
| OpReconnect
| OpSubscribe
| OpTimerFires
| OpHandle (key : string) (m : Message).

Definition run_op (op : Op) : M unit :=
  match op with
  | OpGetROSParams => GetROSParams
  | OpInitializeIO => InitializeIO
  | OpReconnect => Reconnect
  | OpSubscribe => Subscribe
  | OpTimerFires => timer_fires
  | OpHandle key m => handle key m
  end.

(** The state after a sequence of operations; one that throws still
    leaves a state behind. *)
Fixpoint run_ops (ops : list Op) (st : State) : State :=
  match ops with
  | [] => st
  | op :: rest => run_ops rest (run_op op st).2
  end.

(** *** The rest of the header *)

(** [defaultGetTimeHandler], given what [microsec_clock::universal_time]
    returns.  The result is a [double] holding a whole number below 86400,
    which it represents exactly. *)
Definition defaultGetTimeHandler (present_time : Z) : Z :=
  let duration := boost.time_of_day present_time in
  boost.total_seconds duration.

(** [checkRange<V, T>(val, min, max, name)] for integer types [V] and [T]
    that may differ: each comparison is made in the common type of its
    operands, and [min] and [max] are written as values of [T].  What is
    thrown is given by its [what()], so a NUL byte written for a limit of an
    8-bit type ends the message. *)
Definition checkRange_as (V T : cpp.int_type) (val min max : Z)
    (name : string) : M unit :=
  if cpp.lt V T val min || cpp.gt V T val max then
    throw (cpp.c_str
             ("Invalid settings: " +:+ name +:+ " must be in range ["
              +:+ cpp.show T min +:+ ", " +:+ cpp.show T max +:+ "]."))
  else ret tt.

(** The loop of [checkRange(std::vector<V> val, min, max, name)], from
    index [i] on. *)
Fixpoint checkRange_from (V T : cpp.int_type) (i : nat) (val : list Z)
    (min max : Z) (name : string) : M unit :=
  match val with
  | [] => ret tt
  | v :: rest =>
      checkRange_as V T v min max (name +:+ "[" +:+ pretty i +:+ "]");;
      checkRange_from V T (S i) rest min max name
  end.

Definition checkRange_vector (V T : cpp.int_type) (val : list Z)
    (min max : Z) (name : string) : M unit :=
  checkRange_from V T 0 val min max name.

(** [GetROSInt(key, std::vector<U> &u)].  [XmlRpcValue] above has no arrays,
    so the integer arrays of the parameter server come as a map of their
    own.  The result is [Some u'] when the function returns true with [u']
    in [u], and [None] when it returns false and leaves [u] alone. *)
Definition GetROSInt_vector (U : cpp.int_type)
    (arrays : gmap string (list Z)) (key : string) (u : list Z)
    : M (option (list Z)) :=
  match arrays !! key with
  | None => ret None
  | Some param =>
      let min := cpp.lowest U in
      let max := cpp.max U in
      checkRange_vector cpp.int U param min max key;;
      ret (Some (map (cpp.cast U) param ++ u))
  end.

(** *** [main] *)

(** The globals [io_comm_mosaic::debug] and [frame_id], and whether the
    logger level was set to [Debug]. *)
Record Globals : Type := {
  debug : Z;
  frame_id : string;
  logger_level_debug : bool
}.

(** [main], for the parameters in the private namespace of the node.  It
    returns when the constructor does. *)
Definition main (outcome : nat -> string -> Z -> bool)
    (params : ros.param_server) : result Z * State * Globals :=
  let debug_value := ros.param (ros.getParam_int params "debug") 1 in
  let globals :=
    {| debug := debug_value;
       frame_id := ros.param (ros.getParam_string params "frame_id") "gnss";
       logger_level_debug := negb (debug_value =? 0) |} in
  match MinROSNode (fresh outcome params) with
  | (Ok _, st) => (Ok 0, st, globals)
  | (Throw what, st) => (Throw what, st, globals)
  end.

(** *** Reading a trace *)

Definition is_serial_attempt (e : Event) : bool :=
  match e with
  | EInitializeSerial _ _ _ => true
  | _ => false
  end.

Definition is_publish (e : Event) : bool :=
  match e with
  | EPublish _ _ _ => true
  | _ => false
  end.

Definition advertises (MessageT : string) (e : Event) : bool :=
  match e with
  | EAdvertise T _ _ => bool_decide (T = MessageT)
  | _ => false
  end.

(** The publishers agree with the trace: a message type has a publisher
    exactly if it was advertised, once, on the topic of the publisher, and
    every message of the type was published on that topic. *)
Definition publishers_agree (st : State) : Prop :=
  (forall T,
      filter (advertises T) (trace st)
      = match publishers st !! T with
        | Some t => [EAdvertise T t ROSQueueSize]
        | None => []
        end)
  /\ (forall T t m, EPublish T t m ∈ trace st -> publishers st !! T = Some t).

(** The value of [publish/gpgga] that [Subscribe] will read. *)
Definition gpgga_enabled (st : State) : bool :=
  ros.param (ros.getParam_bool (nh st) "publish/gpgga") true.

(** The value of [device] that [GetROSParams] will read. *)
Definition configured_device (params : ros.param_server) : string :=
  ros.param (ros.getParam_string params "device") "/dev/ttyACM0".

End minros_node.

(** ** The ASCII side of the frame decoder and the dispatcher

    Neither is part of the sources at hand; both are modelled from the
    specification. *)

Module frame_decoder.

Inductive Encoding : Type := Binary | Ascii.

Record DecodedMessage : Type := {
  identifier : string;
  payload : string;
  encoding : Encoding;
  valid : bool
}.

Definition dollar : ascii := "$"%char.
Definition star : ascii := "*"%char.
Definition comma : ascii := ","%char.
Definition line_feed : ascii := ascii_of_nat 10.
Definition carriage_return : ascii := ascii_of_nat 13.

(** Modelled from the spec: a candidate frame ends at the first line
    terminator.  The buffer is cut at the first line feed; [None] means the
    line is not complete yet. *)
Fixpoint split_line (buf : string) : option (string * string) :=
  match buf with
  | EmptyString => None
  | String c rest =>
      if Ascii.eqb c line_feed then Some (EmptyString, rest)
      else
        match split_line rest with
        | Some (line, remaining) => Some (String c line, remaining)
        | None => None
        end
  end.

(** Modelled from the spec: the cumulative exclusive-or of the bytes up to
    (exclusive) the first [*], together with what follows that [*]. *)
Fixpoint xor_to_star (acc : N) (s : string) : option (N * string) :=
  match s with
  | EmptyString => None
  | String c rest =>
      if Ascii.eqb c star then Some (acc, rest)
      else xor_to_star (N.lxor acc (N_of_ascii c)) rest
  end.

Definition hex_digit (n : N) : ascii :=
  default "?"%char (String.list_ascii_of_string "0123456789ABCDEF" !! N.to_nat n).

(** Modelled from the spec: a byte rendered as two uppercase hex digits. *)
Definition render_hex (byte : N) : string :=
  String (hex_digit (byte / 16)) (String (hex_digit (byte mod 16)) EmptyString).


(** Modelled from the spec: the identifier is the token immediately
    following [$] up to the first field separator. *)
Fixpoint token (s : string) : string :=
  match s with
  | EmptyString => EmptyString
  | String c rest =>
      if Ascii.eqb c comma then EmptyString else String c (token rest)
  end.

(** Modelled from the spec: the two bytes following [*] are compared with
    the rendered checksum; a sentence without them is not valid. *)
Definition checksum_ok (sentence : string) : bool :=
  match xor_to_star 0%N sentence with
  | Some (checksum, String c1 (String c2 _)) =>
      bool_decide (render_hex checksum = String c1 (String c2 EmptyString))
  | _ => false
  end.

(** Modelled from the spec: the decoder on a buffer whose first byte is
    [$].  It yields nothing while the line is incomplete.  Otherwise it
    yields the frame, valid or not, and the bytes left to decode: a valid
    frame is consumed with its line terminator; of an invalid one exactly one
    leading byte, the [$], is discarded, and the rest of the candidate stays
    in the buffer to be scanned again. *)
Definition decode_ascii (buf : string) : option (DecodedMessage * string) :=
  match buf with
  | String c rest =>
      if Ascii.eqb c dollar then
        match split_line rest with
        | Some (sentence, remaining) =>
            Some ({| identifier := token sentence;
                     payload := String c sentence;
                     encoding := Ascii;
                     valid := checksum_ok sentence |},
                  if checksum_ok sentence then remaining else rest)
        | None => None
        end
      else None
  | EmptyString => None
  end.



End frame_decoder.

(** * Properties *)

Import minros_node.

(** ** The model at work *)

Example device_regex_tcp :
  boost.regex_match "tcp://10.0.0.1:2000" device_regex
  = Some (<[0%nat := "tcp://10.0.0.1:2000"]>
         (<[3%nat := "2000"]> (<[2%nat := "10.0.0.1"]> (<[1%nat := "tcp"]> ∅)))).
Proof. vm_compute. reflexivity. Qed.

Example device_regex_backtracks :
  boost.sub_match
    (default ∅ (boost.regex_match "udp://a:1:22" device_regex)) 2 = "a:1".
Proof. vm_compute. reflexivity. Qed.

Example device_regex_serial :
  boost.regex_match "/dev/ttyACM0" device_regex = None.
Proof. vm_compute. reflexivity. Qed.

Example device_regex_port_not_decimal :
  boost.regex_match "udp://host:12a" device_regex = None.
Proof. vm_compute. reflexivity. Qed.

(** The constructor on an empty parameter server, with a port that opens. *)
Example constructor_defaults :
  let r := MinROSNode (fresh (fun _ _ _ => true) ∅) in
  r.1 = Ok tt
  /\ device_ r.2 = "/dev/ttyACM0" /\ baudrate_ r.2 = 115200
  /\ trace r.2 = [EInitializeSerial "/dev/ttyACM0" 115200 true]
  /\ connected_ r.2 = false
  /\ io_comm_mosaic.handlers_ (IO r.2)
     = [("$GPGGA", bind_publish Gpgga "/gpgga")].
Proof. by vm_compute. Qed.

(** The stub for [tcp]: nothing is thrown and nothing is connected. *)
Example constructor_tcp :
  let r := MinROSNode (fresh (fun _ _ _ => true)
                         {["device" := ros.TypeString "tcp://10.0.0.1:2000"]}) in
  r.1 = Ok tt /\ trace r.2 = [].
Proof. by vm_compute. Qed.

Example checkRange_throws :
  (checkRange 300 0 255 "serial/bits" (fresh (fun _ _ _ => true) ∅)).1
  = Throw "Invalid settings: serial/bits must be in range [0, 255].".
Proof. vm_compute. reflexivity. Qed.

Example cast_examples :
  cpp.cast cpp.uint32_t (-1) = 4294967295
  /\ cpp.cast cpp.int 4294967295 = -1
  /\ cpp.cast cpp.uint32_t 115200 = 115200.
Proof. by vm_compute. Qed.

Example gga_frame :
  frame_decoder.decode_ascii
    ("$GPGGA,123519,4807.038,N,01131.000,E,1,08,0.9,545.4,M,46.9,M,,*47"
     +:+ String frame_decoder.carriage_return
           (String frame_decoder.line_feed "$GP"))
  = Some ({| frame_decoder.identifier := "GPGGA";
             frame_decoder.payload :=
               "$GPGGA,123519,4807.038,N,01131.000,E,1,08,0.9,545.4,M,46.9,M,,*47"
               +:+ String frame_decoder.carriage_return "";
             frame_decoder.encoding := frame_decoder.Ascii;
             frame_decoder.valid := true |}, "$GP").
Proof. vm_compute. reflexivity. Qed.

(** ** Strings *)

Section string_facts.

Lemma append_cons (a : ascii) (s t : string) :
  String a s +:+ t = String a (s +:+ t).
Proof. reflexivity. Qed.

Lemma append_nil_l (t : string) : "" +:+ t = t.
Proof. reflexivity. Qed.


Lemma length_append (s t : string) :
  String.length (s +:+ t) = (String.length s + String.length t)%nat.
Proof.
  induction s as [|a s IH]; [reflexivity|].
  rewrite append_cons. cbn. by rewrite IH.
Qed.

Lemma string_take_append (s t : string) :
  string_take (String.length s) (s +:+ t) = s.
Proof.
  induction s as [|a s IH]; [by destruct t|].
  rewrite append_cons. cbn. by rewrite IH.
Qed.

Lemma consumed_append (p s : string) : consumed (p +:+ s) s = p.
Proof.
  unfold consumed. rewrite length_append.
  replace (String.length p + String.length s - String.length s)%nat
    with (String.length p) by lia.
  apply string_take_append.
Qed.

Lemma strip_prefix_append (p s : string) : strip_prefix p (p +:+ s) = Some s.
Proof.
  induction p as [|a p IH]; [reflexivity|].
  rewrite append_cons. cbn. by rewrite Ascii.eqb_refl.
Qed.

Lemma strip_prefix_Some (p s s' : string) :
  strip_prefix p s = Some s' -> s = p +:+ s'.
Proof.
  revert s. induction p as [|a p IH]; intros s H.
  - cbn in H. by injection H as ->.
  - destruct s as [|b s]; [discriminate|]. cbn in H.
    destruct (Ascii.eqb_spec a b) as [->|]; [|discriminate].
    rewrite append_cons. f_equal. by apply IH.
Qed.

End string_facts.

(** ** The regular expression of [InitializeIO] *)

Section regex_facts.

Import boost.

(** Completeness of [+]: any way of cutting off a non-empty run of the
    class that lets the rest of the pattern succeed makes [+] succeed. *)
Lemma plus_loop_complete {R : Type} (c : char_class) (a s : string)
    (k : string -> option R) :
  a <> "" -> string_forall (in_class c) a = true -> is_Some (k s) ->
  is_Some (plus_loop c (a +:+ s) k).
Proof.
  induction a as [|x a IH]; [done|]. intros _ Hall Hk.
  cbn in Hall. apply andb_prop in Hall as [Hx Ha].
  rewrite append_cons. cbn. rewrite Hx.
  destruct a as [|y a].
  - rewrite append_nil_l. destruct (plus_loop c s k); [done|]. exact Hk.
  - destruct (IH ltac:(done) Ha Hk) as [r Hr]. by rewrite Hr.
Qed.

(** Soundness of [+]: whatever it returns was returned by the rest of the
    pattern after a non-empty run of the class. *)
Lemma plus_loop_sound {R : Type} (c : char_class) (s : string)
    (k : string -> option R) (r : R) :
  plus_loop c s k = Some r ->
  exists a s', s = a +:+ s' /\ a <> "" /\
               string_forall (in_class c) a = true /\ k s' = Some r.
Proof.
  induction s as [|x s IH]; [done|]. cbn.
  destruct (in_class c x) eqn:Hx; [|done].
  destruct (plus_loop c s k) as [r'|] eqn:Hloop.
  - intros [= <-]. destruct (IH eq_refl) as (a & s' & -> & Ha & Hall & Hk).
    exists (String x a), s'. rewrite append_cons. cbn. by rewrite Hx, Hall.
  - intros Hk. exists (String x ""), s. cbn. by rewrite Hx.
Qed.

Lemma regex_match_scheme (proto rest : string) :
  proto = "tcp" \/ proto = "udp" ->
  regex_match (proto +:+ "://" +:+ rest) device_regex
  = plus_loop AnyChar rest
      (after_scheme (proto +:+ "://" +:+ rest) proto rest).
Proof.
  intros Hproto. unfold regex_match, device_regex. cbn [run].
  assert (Htcp : forall x, strip_prefix "tcp" ("udp" +:+ x) = None)
    by reflexivity.
  pose proof (consumed_append proto ("://" +:+ rest)) as Hc.
  destruct Hproto as [-> | ->].
  - rewrite (strip_prefix_append "tcp"), (strip_prefix_append "://"), Hc.
    fold (after_scheme ("tcp" +:+ "://" +:+ rest) "tcp" rest).
    by destruct (plus_loop _ _ _).
  - rewrite Htcp.
    rewrite (strip_prefix_append "udp"), (strip_prefix_append "://"), Hc.
    reflexivity.
Qed.

Lemma append_nil_r (s : string) : s +:+ "" = s.
Proof.
  induction s as [|a s IH]; [reflexivity|]. by rewrite append_cons, IH.
Qed.

(** A descriptor [proto://host:port] with a recognised protocol, a
    non-empty host and a non-empty decimal port matches, and the first
    sub-match is the protocol. *)
Lemma device_regex_network (proto host port : string) :
  proto = "tcp" \/ proto = "udp" ->
  host <> "" -> port <> "" -> string_forall is_digit port = true ->
  exists m,
    regex_match (proto +:+ "://" +:+ host +:+ ":" +:+ port) device_regex
      = Some m
    /\ sub_match m 1 = proto.
Proof.
  intros Hproto Hhost Hport Hdigits.
  rewrite regex_match_scheme by done.
  set (rest := host +:+ ":" +:+ port).
  set (k := after_scheme _ proto rest).
  assert (Hk : is_Some (k (":" +:+ port))).
  { unfold k, after_scheme. rewrite (strip_prefix_append ":").
    rewrite <- (append_nil_r port) at 1.
    apply plus_loop_complete; [done | done | by eexists]. }
  destruct (plus_loop_complete AnyChar host (":" +:+ port) k) as [m Hm];
    [done | by clear; induction host | done |].
  exists m. split; [done|].
  apply plus_loop_sound in Hm as (a & s1 & _ & _ & _ & Hm).
  unfold k, after_scheme in Hm.
  destruct (strip_prefix ":" s1) as [s2|]; [|done].
  apply plus_loop_sound in Hm as (b & s3 & _ & _ & _ & Hm).
  destruct s3; [|done]. injection Hm as <-.
  unfold sub_match. by simplify_map_eq.
Qed.

End regex_facts.

Section regex_sound.

Import boost.

Lemma regex_match_unfold (d : string) :
  regex_match d device_regex
  = match
      match strip_prefix "tcp" d with
      | Some s' => scheme_tail d s'
      | None => None
      end
    with
    | Some m => Some m
    | None =>
        match strip_prefix "udp" d with
        | Some s' => scheme_tail d s'
        | None => None
        end
    end.
Proof. reflexivity. Qed.

Lemma scheme_tail_sound (proto d s' : string) (m : smatch) :
  proto = "tcp" \/ proto = "udp" ->
  strip_prefix proto d = Some s' -> scheme_tail d s' = Some m ->
  network_descriptor d.
Proof.
  intros Hproto Hp Hk. unfold scheme_tail in Hk.
  apply strip_prefix_Some in Hp as ->.
  destruct (strip_prefix "://" s') as [s0|] eqn:H0; [|done].
  apply strip_prefix_Some in H0 as ->.
  apply plus_loop_sound in Hk as (host & s1 & -> & Hhost & _ & Hk).
  unfold after_scheme in Hk.
  destruct (strip_prefix ":" s1) as [s2|] eqn:H1; [|done].
  apply strip_prefix_Some in H1 as ->.
  apply plus_loop_sound in Hk as (port & s3 & -> & Hport & Hdig & Hk).
  destruct s3; [|done].
  exists proto, host, port. rewrite append_nil_r. by repeat split.
Qed.

(** Conversely, the pattern accepts nothing else. *)
Lemma device_regex_sound (d : string) (m : smatch) :
  regex_match d device_regex = Some m -> network_descriptor d.
Proof.
  rewrite regex_match_unfold. intros H.
  destruct (strip_prefix "tcp" d) as [s'|] eqn:Htcp.
  - destruct (scheme_tail d s') as [m'|] eqn:Htail.
    + eapply (scheme_tail_sound "tcp"); eauto.
    + apply strip_prefix_Some in Htcp as ->. done.
  - destruct (strip_prefix "udp" d) as [s'|] eqn:Hudp; [|done].
    eapply (scheme_tail_sound "udp"); eauto.
Qed.

Lemma device_regex_None (d : string) :
  ~ network_descriptor d -> regex_match d device_regex = None.
Proof.
  intros Hn. destruct (regex_match d device_regex) as [m|] eqn:H; [|done].
  destruct Hn. by eapply device_regex_sound.
Qed.

(** So whether a descriptor is a network descriptor can be computed. *)
Lemma not_network_descriptor (d : string) :
  regex_match d device_regex = None -> ~ network_descriptor d.
Proof.
  intros Hnone (proto & host & port & Hproto & Hhost & Hport & Hdig & ->).
  destruct (device_regex_network proto host port) as (m & Hm & _);
    [done..|].
  by rewrite Hm in Hnone.
Qed.

End regex_sound.

(** ** Reading integer parameters *)

Section integer_parameters.

Lemma cast_in_range (U : cpp.int_type) (v : Z) :
  0 < cpp.width U -> cpp.lowest U <= cpp.cast U v <= cpp.max U.
Proof.
  intros Hw. unfold cpp.lowest, cpp.cast, cpp.max.
  assert (Hpow : 2 ^ cpp.width U = 2 * 2 ^ (cpp.width U - 1)).
  { rewrite <- Z.pow_succ_r by lia. f_equal. lia. }
  assert (Hpos : 0 < 2 ^ (cpp.width U - 1)) by (apply Z.pow_pos_nonneg; lia).
  destruct (cpp.is_signed U).
  - pose proof (Z.mod_pos_bound (v + 2 ^ (cpp.width U - 1))
                  (2 ^ cpp.width U) ltac:(lia)). lia.
  - pose proof (Z.mod_pos_bound v (2 ^ cpp.width U) ltac:(lia)). lia.
Qed.

(** The check of [GetROSInt] is applied to a value that was converted to
    [U] already, so it passes. *)
Lemma checkRange_cast (U : cpp.int_type) (v : Z) (name : string)
    (st : State) :
  0 < cpp.width U ->
  checkRange (cpp.cast U v) (cpp.lowest U) (cpp.max U) name st = (Ok tt, st).
Proof.
  intros Hw. pose proof (cast_in_range U v Hw) as [Hlo Hhi].
  unfold checkRange.
  replace (cpp.cast U v <? cpp.lowest U) with false by (symmetry; lia).
  replace (cpp.cast U v >? cpp.max U) with false by (symmetry; lia).
  reflexivity.
Qed.

Lemma GetROSInt_found (U : cpp.int_type) (key : string) (st : State)
    (param : Z) :
  0 < cpp.width U ->
  ros.getParam_int (nh st) key = Some param ->
  GetROSInt U key st = (Ok (Some (cpp.cast U param)), st).
Proof.
  intros Hw Hget. unfold GetROSInt, bind, gets. cbn. rewrite Hget.
  by rewrite checkRange_cast.
Qed.

Lemma GetROSInt_not_found (U : cpp.int_type) (key : string) (st : State) :
  ros.getParam_int (nh st) key = None ->
  GetROSInt U key st = (Ok None, st).
Proof. intros Hget. unfold GetROSInt, bind, gets. cbn. by rewrite Hget. Qed.

(** [GetROSParams] always returns: the device is the parameter or its
    default, the baud rate is the parameter converted to [uint32_t] or the
    default, and nothing else changes. *)
Lemma GetROSParams_returns (st : State) :
  GetROSParams st
  = (Ok tt,
     set_baudrate_
       (match ros.getParam_int (nh st) "serial/baudrate" with
        | Some param => cpp.cast cpp.uint32_t param
        | None => 115200
        end)
       (set_device_
          (ros.param (ros.getParam_string (nh st) "device") "/dev/ttyACM0")
          st)).
Proof.
  unfold GetROSParams, GetROSInt_default.
  unfold bind at 1. unfold gets at 1. cbn beta iota.
  unfold bind at 1. unfold modify at 1. cbn beta iota.
  set (st1 := set_device_ _ st).
  unfold bind at 1. unfold bind at 1.
  destruct (ros.getParam_int (nh st) "serial/baudrate") as [param|] eqn:Hget.
  - rewrite (GetROSInt_found cpp.uint32_t _ st1 param) by done. reflexivity.
  - rewrite (GetROSInt_not_found cpp.uint32_t _ st1) by done. reflexivity.
Qed.

End integer_parameters.

(** C9: [GetROSInt] converts the retrieved [int] to [U] before it checks the
    range against the limits of [U] itself.  For every [U] of 32 bits or more
    the check therefore passes for every value and nothing is thrown; the
    parameter is accepted as converted.  With [-1] as the baud rate, an
    unsigned 32-bit member, the value is reduced modulo [2^32] and the node
    ends up with [4294967295]. *)
Theorem C9_range_check_after_cast (U : cpp.int_type) :
  32 <= cpp.width U ->
  (forall (v : Z) (name : string) (st : State),
      checkRange (cpp.cast U v) (cpp.lowest U) (cpp.max U) name st
      = (Ok tt, st))
  /\ (forall (key : string) (st : State) (param : Z),
        ros.getParam_int (nh st) key = Some param ->
        GetROSInt U key st = (Ok (Some (cpp.cast U param)), st))
  /\ (forall (key : string) (st : State) (what : string),
        (GetROSInt U key st).1 <> Throw what)
  /\ (forall v : Z, cpp.cast cpp.uint32_t v = v mod 2 ^ 32)
  /\ (forall st : State,
        nh st !! "serial/baudrate" = Some (ros.TypeInt (-1)) ->
        (GetROSParams st).1 = Ok tt
        /\ baudrate_ (GetROSParams st).2 = 4294967295).
Proof.
  intros Hw. repeat split.
  - intros. apply checkRange_cast. lia.
  - intros. apply GetROSInt_found; [lia | done].
  - intros key st what.
    destruct (ros.getParam_int (nh st) key) as [param|] eqn:Hget.
    + by rewrite (GetROSInt_found U key st param) by (lia || done).
    + by rewrite GetROSInt_not_found.
  - rewrite GetROSParams_returns. reflexivity.
  - rewrite GetROSParams_returns. cbn.
    unfold ros.getParam_int. by rewrite H.
Qed.

(** C9 at [uint32_t] and a parameter server that holds [-1] for the baud
    rate. *)
Lemma C9_range_check_after_cast_witness :
  32 <= cpp.width cpp.uint32_t
  /\ GetROSInt cpp.uint32_t "serial/baudrate"
       (fresh (fun _ _ _ => false)
              {["serial/baudrate" := ros.TypeInt (-1)]})
     = (Ok (Some 4294967295),
        fresh (fun _ _ _ => false) {["serial/baudrate" := ros.TypeInt (-1)]}).
Proof.
  split; [vm_compute; discriminate|].
  apply (proj1 (proj2 (C9_range_check_after_cast cpp.uint32_t
                         ltac:(vm_compute; discriminate)))
           "serial/baudrate" _ (-1)).
  vm_compute. reflexivity.
Defined.

(** ** Choosing the transport: [InitializeIO] *)

Section initialize_io.

(** What [InitializeIO] does with a descriptor the pattern accepts. *)
Lemma InitializeIO_network (st : State) (proto host port : string) :
  proto = "tcp" \/ proto = "udp" ->
  host <> "" -> port <> "" -> string_forall boost.is_digit port = true ->
  device_ st = proto +:+ "://" +:+ host +:+ ":" +:+ port ->
  InitializeIO st
  = if decide (proto = "tcp") then (Ok tt, st)
    else (Throw ("Protocol '" +:+ proto +:+ "' is unsupported"), st).
Proof.
  intros Hproto Hhost Hport Hdig Hdev.
  destruct (device_regex_network proto host port) as (m & Hm & Hsub);
    [done..|].
  unfold InitializeIO, bind, gets. cbn beta iota.
  rewrite Hdev, Hm, Hsub. by destruct (decide (proto = "tcp")).
Qed.

(** What it does with every other descriptor: one call of
    [InitializeSerial] with the descriptor as the port and the configured
    baud rate, whose result is dropped. *)
Lemma InitializeIO_serial (st : State) :
  boost.regex_match (device_ st) device_regex = None ->
  InitializeIO st
  = (Ok tt,
     emit (EInitializeSerial (device_ st) (baudrate_ st)
             (serial_outcome st
                (io_comm_mosaic.serial_attempts (IO st))
                (device_ st) (baudrate_ st)))
       (set_IO {| io_comm_mosaic.handlers_ :=
                    io_comm_mosaic.handlers_ (IO st);
                  io_comm_mosaic.serial_attempts :=
                    S (io_comm_mosaic.serial_attempts (IO st)) |} st)).
Proof.
  intros Hm. unfold InitializeIO, bind, gets. cbn beta iota.
  rewrite Hm. reflexivity.
Qed.

End initialize_io.

(** C1: a descriptor [proto://host:port] whose protocol is a recognised
    token other than [tcp], that is [udp], makes [InitializeIO] throw
    ["Protocol 'udp' is unsupported"] and leaves the state as it was: no port
    is opened, no timer is touched, nothing is recorded in the trace.  Run
    from the constructor on such a [device] parameter, the exception leaves
    the constructor before [Subscribe]; no connect attempt has been made, the
    reconnect timer was never created, and a timer period elapsing afterwards
    does nothing. *)
Theorem C1_unsupported_protocol_is_fatal (proto host port : string) :
  proto = "tcp" \/ proto = "udp" -> proto <> "tcp" ->
  host <> "" -> port <> "" -> string_forall boost.is_digit port = true ->
  let d := proto +:+ "://" +:+ host +:+ ":" +:+ port in
  let what := "Protocol '" +:+ proto +:+ "' is unsupported" in
  (forall st : State, device_ st = d -> InitializeIO st = (Throw what, st))
  /\ (forall (outcome : nat -> string -> Z -> bool) (params : ros.param_server),
        params !! "device" = Some (ros.TypeString d) ->
        let r := MinROSNode (fresh outcome params) in
        r.1 = Throw what
        /\ trace r.2 = []
        /\ io_comm_mosaic.serial_attempts (IO r.2) = 0%nat
        /\ io_comm_mosaic.handlers_ (IO r.2) = []
        /\ reconnect_timer_ r.2 = ros.TimerNull
        /\ timer_fires r.2 = (Ok tt, r.2)).
Proof.
  intros Hproto Hne Hhost Hport Hdig d what.
  assert (Hio : forall st, device_ st = d -> InitializeIO st = (Throw what, st)).
  { intros st Hdev.
    rewrite (InitializeIO_network st proto host port) by done.
    by destruct (decide (proto = "tcp")). }
  split; [exact Hio|].
  intros outcome params Hparam r.
  assert (Hr : exists baud,
             r = (Throw what,
                  set_baudrate_ baud (set_device_ d (fresh outcome params)))).
  { subst r. unfold MinROSNode. unfold bind at 1.
    rewrite GetROSParams_returns. cbn beta iota.
    unfold ros.getParam_string. cbn [nh fresh]. rewrite Hparam.
    unfold bind at 1. rewrite Hio; [|reflexivity]. by eexists. }
  destruct Hr as [baud ->]. cbn. by repeat split.
Qed.

(** C1 at [udp://192.168.3.1:28784]. *)
Lemma C1_unsupported_protocol_is_fatal_witness :
  let st := set_device_ "udp://192.168.3.1:28784" (fresh (fun _ _ _ => true) ∅) in
  InitializeIO st = (Throw "Protocol 'udp' is unsupported", st).
Proof.
  intros st.
  apply (proj1 (C1_unsupported_protocol_is_fatal "udp" "192.168.3.1" "28784"
                  (or_intror eq_refl) ltac:(discriminate) ltac:(discriminate)
                  ltac:(discriminate) eq_refl)).
  reflexivity.
Defined.

Lemma descriptor_without_port_malformed : malformed "udp://localhost".
Proof.
  split.
  - intros [rest Hrest]. discriminate Hrest.
  - apply not_network_descriptor. reflexivity.
Qed.

(** C5, as stated, fails.  The descriptor [udp://localhost] has no port: it is
    neither a device path nor a well-formed network descriptor.  The
    constructor does not throw on it.  [InitializeIO] takes it for a serial
    port, tries to open it once at the default baud rate, and start-up goes
    on to register the GPGGA handler. *)
Lemma C5_malformed_descriptor_counterexample :
  let d := "udp://localhost" in
  let r := MinROSNode (fresh (fun _ _ _ => false)
                         {["device" := ros.TypeString d]}) in
  malformed d
  /\ r.1 = Ok tt
  /\ trace r.2 = [EInitializeSerial d 115200 false]
  /\ io_comm_mosaic.handlers_ (IO r.2)
     = [("$GPGGA", bind_publish Gpgga "/gpgga")].
Proof.
  split; [exact descriptor_without_port_malformed | by vm_compute].
Qed.

(** C5, amended: a descriptor that is not a well-formed
    [(tcp|udp)://host:port] string is never rejected.  [InitializeIO] throws
    nothing for it; it passes the descriptor unchanged, with the configured
    baud rate, to exactly one call of [InitializeSerial], and returns
    whatever that call reports. *)
Theorem C5_other_descriptors_are_serial (st : State) :
  ~ network_descriptor (device_ st) ->
  let r := InitializeIO st in
  r.1 = Ok tt
  /\ (exists opened,
        trace r.2
        = trace st ++ [EInitializeSerial (device_ st) (baudrate_ st) opened])
  /\ io_comm_mosaic.serial_attempts (IO r.2)
     = S (io_comm_mosaic.serial_attempts (IO st)).
Proof.
  intros Hn r. subst r.
  rewrite InitializeIO_serial by (by apply device_regex_None).
  cbn. split; [done|]. split; [by eexists | done].
Qed.

(** C5 amended, at the descriptor without a port. *)
Lemma C5_other_descriptors_are_serial_witness :
  let st := set_device_ "udp://localhost" (fresh (fun _ _ _ => false) ∅) in
  ~ network_descriptor (device_ st)
  /\ (InitializeIO st).1 = Ok tt.
Proof.
  intros st.
  assert (Hn : ~ network_descriptor (device_ st))
    by (apply not_network_descriptor; reflexivity).
  split; [exact Hn|].
  exact (proj1 (C5_other_descriptors_are_serial st Hn)).
Defined.

(** ** The reconnect callback *)

Section reconnect.

(** The state right after the call of [InitializeSerial] that [Reconnect]
    and the serial branch of [InitializeIO] make. *)
Lemma InitializeSerial_eq (port : string) (baud : Z) (st : State) :
  InitializeSerial port baud st
  = (let opened :=
       serial_outcome st (io_comm_mosaic.serial_attempts (IO st)) port baud in
     (Ok opened,
      emit (EInitializeSerial port baud opened)
        (set_IO {| io_comm_mosaic.handlers_ :=
                     io_comm_mosaic.handlers_ (IO st);
                   io_comm_mosaic.serial_attempts :=
                     S (io_comm_mosaic.serial_attempts (IO st)) |} st))).
Proof. reflexivity. Qed.

Lemma Reconnect_opened (st : State) :
  serial_outcome st (io_comm_mosaic.serial_attempts (IO st))
    (device_ st) (baudrate_ st) = true ->
  exists st',
    Reconnect st = (Ok tt, st')
    /\ connected_ st' = true
    /\ reconnect_timer_ st' = ros.stop (reconnect_timer_ st)
    /\ trace st' = trace st ++ [EInitializeSerial (device_ st) (baudrate_ st)
                                  true; ETimerStop]
    /\ device_ st' = device_ st /\ baudrate_ st' = baudrate_ st
    /\ serial_outcome st' = serial_outcome st
    /\ io_comm_mosaic.serial_attempts (IO st')
       = S (io_comm_mosaic.serial_attempts (IO st)).
Proof.
  intros Hok. eexists. split.
  - unfold Reconnect, bind, gets, modify, ret.
    rewrite InitializeSerial_eq. cbn. rewrite Hok. cbn. reflexivity.
  - cbn. rewrite <- app_assoc. by repeat split.
Qed.

Lemma Reconnect_failed (st : State) :
  serial_outcome st (io_comm_mosaic.serial_attempts (IO st))
    (device_ st) (baudrate_ st) = false ->
  exists st',
    Reconnect st = (Ok tt, st')
    /\ connected_ st' = connected_ st
    /\ reconnect_timer_ st'
       = (if connected_ st then ros.stop (reconnect_timer_ st)
          else reconnect_timer_ st)
    /\ trace st'
       = trace st ++ EInitializeSerial (device_ st) (baudrate_ st) false
                     :: (if connected_ st then [ETimerStop] else [])
    /\ device_ st' = device_ st /\ baudrate_ st' = baudrate_ st
    /\ serial_outcome st' = serial_outcome st
    /\ io_comm_mosaic.serial_attempts (IO st')
       = S (io_comm_mosaic.serial_attempts (IO st)).
Proof.
  intros Hko. destruct (connected_ st) eqn:Hc; eexists; split.
  - unfold Reconnect, bind, gets, modify, ret.
    rewrite InitializeSerial_eq. cbn. rewrite Hko. cbn. rewrite Hc.
    cbn. reflexivity.
  - cbn. rewrite <- app_assoc. by repeat split.
  - unfold Reconnect, bind, gets, modify, ret.
    rewrite InitializeSerial_eq. cbn. rewrite Hko. cbn. rewrite Hc.
    cbn. reflexivity.
  - cbn. by repeat split.
Qed.

Lemma running_stop (t : ros.Timer) : ros.running (ros.stop t) = false.
Proof. by destruct t. Qed.

(** A timer that is not running makes no attempts, however long one
    waits. *)
Lemma timer_at_rest (n : nat) (st : State) :
  ros.running (reconnect_timer_ st) = false ->
  run_ops (repeat OpTimerFires n) st = st.
Proof.
  intros Hrest. induction n as [|n IH]; [reflexivity|].
  cbn [repeat run_ops run_op]. unfold timer_fires at 1, bind, gets.
  cbn beta iota. rewrite Hrest. exact IH.
Qed.

End reconnect.

Section retrying.

Lemma timer_fires_running (st : State) :
  ros.running (reconnect_timer_ st) = true -> timer_fires st = Reconnect st.
Proof.
  intros Hrun. unfold timer_fires, bind, gets. cbn beta iota.
  by rewrite Hrun.
Qed.

(** While every attempt fails and no attempt has succeeded before, a
    running timer keeps making the same attempt, once per period. *)
Lemma timer_keeps_trying (n : nat) (st : State) :
  ros.running (reconnect_timer_ st) = true ->
  connected_ st = false ->
  (forall k, serial_outcome st k (device_ st) (baudrate_ st) = false) ->
  let st' := run_ops (repeat OpTimerFires n) st in
  trace st'
  = trace st
    ++ repeat (EInitializeSerial (device_ st) (baudrate_ st) false) n
  /\ ros.running (reconnect_timer_ st') = true
  /\ connected_ st' = false.
Proof.
  revert st. induction n as [|n IH]; intros st Hrun Hc Hfail.
  - cbn. by rewrite app_nil_r.
  - cbn [repeat run_ops run_op]. rewrite timer_fires_running by done.
    destruct (Reconnect_failed st (Hfail _))
      as (st1 & -> & Hc1 & Ht1 & Htr1 & Hd1 & Hb1 & Ho1 & _).
    rewrite Hc in Ht1, Htr1. cbn [snd].
    destruct (IH st1) as (Htr & Hrun' & Hc').
    + by rewrite Ht1.
    + by rewrite Hc1.
    + intros k. by rewrite Ho1, Hd1, Hb1.
    + rewrite Htr, Htr1, Hd1, Hb1, <- app_assoc. by repeat split.
Qed.

End retrying.

(** C3, as stated, fails.  With the default parameters and a port that cannot
    be opened, the constructor returns normally after a single failed
    attempt, but the reconnect timer is not running afterwards, and ten timer
    periods later there still has been no second attempt. *)
Lemma C3_no_timer_counterexample :
  let r := MinROSNode (fresh (fun _ _ _ => false) ∅) in
  r.1 = Ok tt
  /\ trace r.2 = [EInitializeSerial "/dev/ttyACM0" 115200 false]
  /\ ros.running (reconnect_timer_ r.2) = false
  /\ trace (run_ops (repeat OpTimerFires 10) r.2)
     = [EInitializeSerial "/dev/ttyACM0" 115200 false].
Proof. by vm_compute. Qed.

(** C3, amended: when the connect attempt that [InitializeIO] makes fails, no
    exception is raised to the caller and no timer is armed.  The result of
    the attempt is dropped, [reconnect_timer_] and [connected_] stay as they
    were, and with a timer that is not running, as the constructor leaves it,
    no further attempt follows.  The callback [Reconnect] is what re-invokes
    the same connect attempt: each time a running timer fires it calls
    [InitializeSerial] with the same device and baud rate, and for as long as
    the attempts fail the timer stays running. *)
Theorem C3_failed_attempt_arms_no_timer :
  (forall st : State,
      ~ network_descriptor (device_ st) ->
      serial_outcome st (io_comm_mosaic.serial_attempts (IO st))
        (device_ st) (baudrate_ st) = false ->
      let r := InitializeIO st in
      r.1 = Ok tt
      /\ reconnect_timer_ r.2 = reconnect_timer_ st
      /\ connected_ r.2 = connected_ st
      /\ trace r.2
         = trace st ++ [EInitializeSerial (device_ st) (baudrate_ st) false]
      /\ (ros.running (reconnect_timer_ st) = false ->
          forall n, run_ops (repeat OpTimerFires n) r.2 = r.2))
  /\ (forall (n : nat) (st : State),
        ros.running (reconnect_timer_ st) = true ->
        connected_ st = false ->
        (forall k, serial_outcome st k (device_ st) (baudrate_ st) = false) ->
        let st' := run_ops (repeat OpTimerFires n) st in
        trace st'
        = trace st
          ++ repeat (EInitializeSerial (device_ st) (baudrate_ st) false) n
        /\ ros.running (reconnect_timer_ st') = true).
Proof.
  split.
  - intros st Hn Hfail r. subst r.
    rewrite InitializeIO_serial by (by apply device_regex_None).
    cbn. rewrite Hfail. repeat split.
    intros Hrest n. by apply timer_at_rest.
  - intros n st Hrun Hc Hfail st'.
    destruct (timer_keeps_trying n st Hrun Hc Hfail) as (Htr & Hrun' & _).
    by split.
Qed.

(** C3 amended, at the default device with a port that cannot be opened. *)
Lemma C3_failed_attempt_arms_no_timer_witness :
  let st := set_baudrate_ 115200
              (set_device_ "/dev/ttyACM0" (fresh (fun _ _ _ => false) ∅)) in
  (InitializeIO st).1 = Ok tt
  /\ reconnect_timer_ (InitializeIO st).2 = ros.TimerNull
  /\ (let st := set_reconnect_timer_ ros.TimerRunning st in
      trace (run_ops (repeat OpTimerFires 3) st)
      = repeat (EInitializeSerial "/dev/ttyACM0" 115200 false) 3).
Proof.
  intros st.
  assert (Hn : ~ network_descriptor (device_ st))
    by (apply not_network_descriptor; reflexivity).
  destruct (proj1 C3_failed_attempt_arms_no_timer st Hn eq_refl)
    as (H1 & H2 & _).
  split; [exact H1|]. split; [exact H2|].
  intros st'.
  exact (proj1 (proj2 C3_failed_attempt_arms_no_timer 3%nat st'
                  eq_refl eq_refl (fun _ => eq_refl))).
Defined.

(** C4: when the attempt that [Reconnect] makes succeeds, [Reconnect] sets
    [connected_], calls [stop] on the reconnect timer and returns; the timer
    is not running afterwards, so however many periods pass, the callback
    does not run again and the state stays as it is. *)
Theorem C4_success_stops_the_timer (st : State) :
  serial_outcome st (io_comm_mosaic.serial_attempts (IO st))
    (device_ st) (baudrate_ st) = true ->
  let r := Reconnect st in
  r.1 = Ok tt
  /\ connected_ r.2 = true
  /\ reconnect_timer_ r.2 = ros.stop (reconnect_timer_ st)
  /\ ros.running (reconnect_timer_ r.2) = false
  /\ trace r.2
     = trace st ++ [EInitializeSerial (device_ st) (baudrate_ st) true;
                    ETimerStop]
  /\ (forall n, run_ops (repeat OpTimerFires n) r.2 = r.2).
Proof.
  intros Hok r. subst r.
  destruct (Reconnect_opened st Hok) as (st' & -> & Hc & Ht & Htr & _).
  cbn [fst snd].
  assert (Hrest : ros.running (reconnect_timer_ st') = false)
    by (rewrite Ht; apply running_stop).
  repeat split; try done.
  intros n. by apply timer_at_rest.
Qed.

(** C4 with a running timer and a port that opens. *)
Lemma C4_success_stops_the_timer_witness :
  let st := set_reconnect_timer_ ros.TimerRunning
              (set_baudrate_ 115200
                 (set_device_ "/dev/ttyACM0" (fresh (fun _ _ _ => true) ∅))) in
  reconnect_timer_ (timer_fires st).2 = ros.TimerStopped
  /\ run_ops (repeat OpTimerFires 5) (timer_fires st).2 = (timer_fires st).2.
Proof.
  intros st.
  destruct (C4_success_stops_the_timer st eq_refl) as (_ & _ & H & _ & _ & Hn).
  split; [exact H | exact (Hn 5%nat)].
Defined.

(** ** The connected flag *)

Section connected_flag.

Lemma publish_eq (MessageT : string) (m : Message) (topic : string)
    (st : State) :
  publish MessageT m topic st
  = (Ok tt,
     match publishers st !! MessageT with
     | Some publisher => emit (EPublish MessageT publisher m) st
     | None =>
         emit (EPublish MessageT topic m)
           (set_publishers (<[MessageT := topic]> (publishers st))
              (emit (EAdvertise MessageT topic ROSQueueSize) st))
     end).
Proof.
  unfold publish, static_publisher, bind, gets, modify, ret. cbn.
  by destruct (publishers st !! MessageT).
Qed.

Lemma invoke_all_connected (invs : list (Callback * Message)) (st : State) :
  connected_ (invoke_all invs st).2 = connected_ st.
Proof.
  revert st. induction invs as [|[[MessageT topic] m] invs IH]; intros st.
  - reflexivity.
  - cbn [invoke_all invoke]. unfold bind. rewrite publish_eq.
    rewrite IH. by destruct (publishers st !! MessageT).
Qed.

(** Only the callback writes [connected_], and only [true]. *)
Lemma run_op_connected (op : Op) (st : State) :
  connected_ (run_op op st).2
  = match op with
    | OpReconnect =>
        serial_outcome st (io_comm_mosaic.serial_attempts (IO st))
          (device_ st) (baudrate_ st) || connected_ st
    | OpTimerFires =>
        ros.running (reconnect_timer_ st)
        && serial_outcome st (io_comm_mosaic.serial_attempts (IO st))
             (device_ st) (baudrate_ st)
        || connected_ st
    | _ => connected_ st
    end.
Proof.
  assert (HR : connected_ (Reconnect st).2
               = serial_outcome st (io_comm_mosaic.serial_attempts (IO st))
                   (device_ st) (baudrate_ st) || connected_ st).
  { destruct (serial_outcome st _ (device_ st) (baudrate_ st)) eqn:Ho.
    - destruct (Reconnect_opened st Ho) as (st' & -> & Hc & _).
      cbn [snd]. by rewrite Hc.
    - destruct (Reconnect_failed st Ho) as (st' & -> & Hc & _).
      cbn [snd]. by rewrite Hc. }
  destruct op; cbn [run_op].
  - by rewrite GetROSParams_returns.
  - unfold InitializeIO, bind, gets. cbn beta iota.
    destruct (boost.regex_match _ _); [|reflexivity].
    by destruct (decide _).
  - exact HR.
  - unfold Subscribe, bind, gets, modify, ret. cbn.
    by destruct (ros.param _ _).
  - destruct (ros.running (reconnect_timer_ st)) eqn:Hrun.
    + rewrite timer_fires_running by done. exact HR.
    + unfold timer_fires, bind, gets. cbn beta iota. by rewrite Hrun.
  - unfold handle, bind, gets. cbn beta iota. apply invoke_all_connected.
Qed.

Lemma run_ops_connected (ops : list Op) (st : State) :
  connected_ st = true -> connected_ (run_ops ops st) = true.
Proof.
  revert st. induction ops as [|op ops IH]; intros st Hc; [done|].
  cbn [run_ops]. apply IH. rewrite run_op_connected, Hc.
  destruct op; try done; apply orb_true_r.
Qed.

End connected_flag.

(** C8, as stated, fails.  On a node with a running timer whose first
    attempt to open the port succeeds and whose second fails, the attempt
    that [InitializeIO] makes succeeds but leaves [connected_] false; the
    run of [Reconnect] that follows fails, does not call [stop], and the
    timer is still running. *)
Lemma C8_attempt_outside_callback_counterexample :
  let st := set_reconnect_timer_ ros.TimerRunning
              (GetROSParams
                 (fresh (fun k _ _ => bool_decide (k = 0%nat)) ∅)).2 in
  let st1 := (InitializeIO st).2 in
  trace st1 = [EInitializeSerial "/dev/ttyACM0" 115200 true]
  /\ connected_ st1 = false
  /\ (Reconnect st1).1 = Ok tt
  /\ trace (Reconnect st1).2
     = [EInitializeSerial "/dev/ttyACM0" 115200 true;
        EInitializeSerial "/dev/ttyACM0" 115200 false]
  /\ ros.running (reconnect_timer_ (Reconnect st1).2) = true.
Proof. by vm_compute. Qed.

(** C8, amended: [connected_] starts out false; no operation of the node
    takes it from true back to false; and the only step that takes it from
    false to true is a run of the timer callback whose own connect attempt
    succeeded (the attempt of [InitializeIO] does not set it).  So once an
    attempt of the callback has succeeded, then whatever the node does in
    between, every later run of [Reconnect] calls [stop] on the reconnect
    timer and leaves it not running, whether the attempt of that run
    succeeds or fails. *)
Theorem C8_connected_is_monotone :
  (forall outcome params, connected_ (fresh outcome params) = false)
  /\ (forall (op : Op) (st : State),
        connected_ st = true -> connected_ (run_op op st).2 = true)
  /\ (forall (op : Op) (st : State),
        connected_ st = false -> connected_ (run_op op st).2 = true ->
        (op = OpReconnect \/ op = OpTimerFires)
        /\ serial_outcome st (io_comm_mosaic.serial_attempts (IO st))
             (device_ st) (baudrate_ st) = true)
  /\ (forall (st : State) (ops : list Op),
        serial_outcome st (io_comm_mosaic.serial_attempts (IO st))
          (device_ st) (baudrate_ st) = true ->
        let later := run_ops ops (Reconnect st).2 in
        let r := Reconnect later in
        r.1 = Ok tt
        /\ connected_ r.2 = true
        /\ ros.running (reconnect_timer_ r.2) = false
        /\ last (trace r.2) = Some ETimerStop).
Proof.
  split; [reflexivity|]. split; [|split].
  - intros op st Hc. rewrite run_op_connected, Hc.
    destruct op; try done; apply orb_true_r.
  - intros op st Hc. rewrite run_op_connected, Hc.
    destruct op; try done; rewrite orb_false_r; intros H.
    + by split; [left|].
    + apply andb_prop in H as [_ H]. by split; [right|].
  - intros st ops Hok later r.
    assert (Hc : connected_ later = true).
    { apply run_ops_connected.
      by destruct (Reconnect_opened st Hok) as (st' & -> & Hc & _). }
    subst r.
    destruct (serial_outcome later
                (io_comm_mosaic.serial_attempts (IO later))
                (device_ later) (baudrate_ later)) eqn:Ho.
    + destruct (Reconnect_opened later Ho) as (st' & -> & Hc' & Ht & Htr & _).
      cbn [fst snd]. rewrite Ht, Htr, running_stop.
      repeat split; try done.
      change [EInitializeSerial (device_ later) (baudrate_ later) true;
              ETimerStop]
        with ([EInitializeSerial (device_ later) (baudrate_ later) true]
              ++ [ETimerStop]).
      by rewrite app_assoc, last_snoc.
    + destruct (Reconnect_failed later Ho) as (st' & -> & Hc' & Ht & Htr & _).
      cbn [fst snd]. rewrite Hc in *. rewrite Hc', Ht, Htr, running_stop.
      repeat split; try done.
      change (EInitializeSerial (device_ later) (baudrate_ later) false
              :: [ETimerStop])
        with ([EInitializeSerial (device_ later) (baudrate_ later) false]
              ++ [ETimerStop]).
      by rewrite app_assoc, last_snoc.
Qed.

(** C8 on a node with a running timer whose first attempt succeeds and whose
    later ones fail. *)
Lemma C8_connected_is_monotone_witness :
  let st := set_reconnect_timer_ ros.TimerRunning
              (GetROSParams
                 (fresh (fun k _ _ => bool_decide (k = 0%nat)) ∅)).2 in
  let later := run_ops [OpSubscribe; OpInitializeIO; OpTimerFires]
                 (Reconnect st).2 in
  trace (Reconnect later).2
  = [EInitializeSerial "/dev/ttyACM0" 115200 true; ETimerStop;
     EInitializeSerial "/dev/ttyACM0" 115200 false;
     EInitializeSerial "/dev/ttyACM0" 115200 false; ETimerStop]
  /\ ros.running (reconnect_timer_ (Reconnect later).2) = false.
Proof.
  intros st later.
  destruct (proj2 (proj2 (proj2 C8_connected_is_monotone)) st
              [OpSubscribe; OpInitializeIO; OpTimerFires] eq_refl)
    as (_ & _ & Hrest & _).
  split; [reflexivity | exact Hrest].
Defined.

(** ** The callback registry *)

Section registry.

Context {Handler Payload : Type}.
Implicit Types (callbacks : io_comm_mosaic.CallbackMap Handler)
               (key : string) (h : Handler).

Import io_comm_mosaic.

Lemma handlers_for_app key callbacks callbacks' :
  handlers_for key (callbacks ++ callbacks')
  = handlers_for key callbacks ++ handlers_for key callbacks'.
Proof.
  induction callbacks as [|[k h] callbacks IH]; [reflexivity|].
  cbn. destruct (decide (k = key)); cbn; by rewrite IH.
Qed.

Lemma handlers_for_insert key key' h callbacks :
  handlers_for key (insert key' h callbacks)
  = handlers_for key callbacks ++ (if decide (key' = key) then [h] else []).
Proof. unfold insert. rewrite handlers_for_app. reflexivity. Qed.

(** Registering a whole list of identifier and handler pairs, one [insert]
    after the other, amounts to appending the list. *)
Lemma insert_all (registrations : list (string * Handler)) callbacks :
  foldl (fun cbs reg => insert reg.1 reg.2 cbs) callbacks registrations
  = callbacks ++ registrations.
Proof.
  revert callbacks.
  induction registrations as [|[k h] regs IH]; intros callbacks.
  - by rewrite app_nil_r.
  - cbn. rewrite IH. unfold insert. by rewrite <- app_assoc.
Qed.

Lemma handlers_for_same key (hs : list Handler) :
  handlers_for key (map (fun h => (key, h)) hs) = hs.
Proof.
  induction hs as [|h hs IH]; [reflexivity|].
  cbn. rewrite decide_True by done. by rewrite IH.
Qed.

End registry.

(** C2: [insert] appends.  Whatever was registered before and however the
    calls for different identifiers are interleaved, after a sequence of
    [insert] calls the handlers held for an identifier are those held before
    followed by the ones just registered for it, in the order of the calls:
    none is overwritten and [count] has grown by their number.  Dispatching
    one message for the identifier makes one invocation per registration, in
    registration order, each with that message.  In particular, after [n]
    calls for one identifier on an empty registry, all [n] handlers are
    invoked, once each and in order. *)
Theorem C2_insert_appends {Handler Payload : Type}
    (registrations : list (string * Handler))
    (callbacks : io_comm_mosaic.CallbackMap Handler)
    (key : string) (payload : Payload) :
  let registered := (filter (fun reg => reg.1 = key) registrations).*2 in
  let callbacks' :=
    foldl (fun cbs reg => io_comm_mosaic.insert reg.1 reg.2 cbs)
          callbacks registrations in
  io_comm_mosaic.handlers_for key callbacks'
  = io_comm_mosaic.handlers_for key callbacks ++ registered
  /\ io_comm_mosaic.count key callbacks'
     = (io_comm_mosaic.count key callbacks + length registered)%nat
  /\ io_comm_mosaic.dispatch key payload callbacks'
     = io_comm_mosaic.dispatch key payload callbacks
       ++ map (fun h => (h, payload)) registered
  /\ (forall hs : list Handler,
        callbacks = [] -> registrations = map (fun h => (key, h)) hs ->
        io_comm_mosaic.count key callbacks' = length hs
        /\ io_comm_mosaic.dispatch key payload callbacks'
           = map (fun h => (h, payload)) hs).
Proof.
  intros registered callbacks'.
  assert (Hreg : io_comm_mosaic.handlers_for key registrations = registered).
  { subst registered. clear.
    induction registrations as [|[k h] regs IH]; [reflexivity|].
    cbn [io_comm_mosaic.handlers_for]. rewrite filter_cons. cbn [fst].
    destruct (decide (k = key)); cbn; by rewrite IH. }
  assert (H : io_comm_mosaic.handlers_for key callbacks'
              = io_comm_mosaic.handlers_for key callbacks ++ registered).
  { subst callbacks'. by rewrite insert_all, handlers_for_app, Hreg. }
  split; [exact H|].
  unfold io_comm_mosaic.count, io_comm_mosaic.dispatch. rewrite H.
  split; [by rewrite length_app|]. split; [by rewrite map_app|].
  intros hs -> Hhs. cbn.
  rewrite <- Hreg, Hhs, handlers_for_same. by rewrite length_map || done.
Qed.

(** C2 for two handlers on the same identifier, alone and with a
    registration for another identifier in between. *)
Lemma C2_insert_appends_witness :
  io_comm_mosaic.dispatch "GPGGA" "payload"
    (io_comm_mosaic.insert "GPGGA" 2%nat
       (io_comm_mosaic.insert "GPRMC" 7%nat
          (io_comm_mosaic.insert "GPGGA" 1%nat [])))
  = [(1%nat, "payload"); (2%nat, "payload")]
  /\ io_comm_mosaic.dispatch "GPGGA" "payload"
       (io_comm_mosaic.insert "GPGGA" 2%nat
          (io_comm_mosaic.insert "GPGGA" 1%nat []))
     = [(1%nat, "payload"); (2%nat, "payload")].
Proof.
  split.
  - exact (proj1 (proj2 (proj2
             (C2_insert_appends [("GPGGA", 1%nat); ("GPRMC", 7%nat);
                                 ("GPGGA", 2%nat)] [] "GPGGA" "payload")))).
  - exact (proj2 (proj2 (proj2 (proj2
             (C2_insert_appends [("GPGGA", 1%nat); ("GPGGA", 2%nat)] []
                "GPGGA" "payload"))) [1%nat; 2%nat] eq_refl eq_refl)).
Defined.

(** ** Subscribing and publishing *)

Section publishing.

(** Once the static publisher of a message type exists, every call of
    [publish] for that type goes to it; calls for other types leave it
    alone. *)
Lemma invoke_all_publisher (MessageT t1 : string)
    (calls : list (Callback * Message)) (st : State) :
  publishers st !! MessageT = Some t1 ->
  (invoke_all calls st).1 = Ok tt
  /\ publishers (invoke_all calls st).2 !! MessageT = Some t1
  /\ exists events,
       trace (invoke_all calls st).2 = trace st ++ events
       /\ forall e, e ∈ events ->
            (forall t m, e = EPublish MessageT t m -> t = t1)
            /\ (forall t q, e <> EAdvertise MessageT t q).
Proof.
  revert st. induction calls as [|[[T topic] m] calls IH]; intros st Hpub.
  - cbn. split; [done|]. split; [done|]. exists [].
    split; [by rewrite app_nil_r|]. intros e He. by apply elem_of_nil in He.
  - cbn [invoke_all invoke]. unfold bind. rewrite publish_eq.
    set (st1 := match publishers st !! T with
                | Some _ => _ | None => _ end).
    assert (H1 : publishers st1 !! MessageT = Some t1
                 /\ exists ev1, trace st1 = trace st ++ ev1
                      /\ forall e, e ∈ ev1 ->
                           (forall t m', e = EPublish MessageT t m' -> t = t1)
                           /\ (forall t q, e <> EAdvertise MessageT t q)).
    { subst st1. destruct (publishers st !! T) as [p|] eqn:HT.
      - split; [done|]. exists [EPublish T p m]. split; [done|].
        intros e He. apply list_elem_of_singleton in He as ->.
        split; [|done]. intros t m' [= -> -> ->]. congruence.
      - assert (T <> MessageT) by congruence.
        split; [cbn; by rewrite lookup_insert_ne|].
        exists [EAdvertise T topic ROSQueueSize; EPublish T topic m].
        split; [cbn; by rewrite <- app_assoc|].
        intros e He. apply elem_of_cons in He as [-> | He].
        + split; [done|]. intros t q [= -> _]. done.
        + apply list_elem_of_singleton in He as ->.
          split; [|done]. intros t m' [= -> _]. done. }
    destruct H1 as (Hpub1 & ev1 & Htr1 & Hev1).
    destruct (IH st1 Hpub1) as (Hok & Hpub2 & ev2 & Htr2 & Hev2).
    split; [exact Hok|]. split; [exact Hpub2|].
    exists (ev1 ++ ev2). split; [by rewrite Htr2, Htr1, app_assoc|].
    intros e He. apply elem_of_app in He as [He | He]; auto.
Qed.

End publishing.

(** C10: the publisher of [publish<MessageT>] is created by the first call
    for that message type, on the topic that call names.  From then on,
    whatever other calls of [publish] happen in between, a call for the same
    message type publishes on the first topic and does not look at the topic
    it is given; nothing is advertised again for the type, and no message of
    the type ever appears on another topic. *)
Theorem C10_first_topic_is_kept (MessageT : string) (m1 : Message)
    (t1 : string) (st : State) :
  publishers st !! MessageT = None ->
  let st1 := (publish MessageT m1 t1 st).2 in
  trace st1
  = trace st ++ [EAdvertise MessageT t1 ROSQueueSize; EPublish MessageT t1 m1]
  /\ (forall (between : list (Callback * Message)) (m2 : Message)
             (t2 : string),
        let st2 := (invoke_all between st1).2 in
        publish MessageT m2 t2 st2 = (Ok tt, emit (EPublish MessageT t1 m2) st2))
  /\ (forall calls : list (Callback * Message),
        exists events,
          trace (invoke_all calls st1).2 = trace st1 ++ events
          /\ forall t2 m2 q,
               t2 <> t1 ->
               (EPublish MessageT t2 m2 ∉ events)
               /\ (EAdvertise MessageT t2 q ∉ events)).
Proof.
  intros Hfirst st1.
  assert (Hst1 : st1 = emit (EPublish MessageT t1 m1)
                         (set_publishers (<[MessageT := t1]> (publishers st))
                            (emit (EAdvertise MessageT t1 ROSQueueSize) st))).
  { subst st1. rewrite publish_eq. by rewrite Hfirst. }
  assert (Hpub : publishers st1 !! MessageT = Some t1).
  { rewrite Hst1. cbn. by rewrite lookup_insert_eq. }
  split; [rewrite Hst1; cbn; by rewrite <- app_assoc|]. split.
  - intros between m2 t2 st2.
    destruct (invoke_all_publisher MessageT t1 between st1 Hpub)
      as (_ & Hpub2 & _).
    rewrite publish_eq. fold st2 in Hpub2. by rewrite Hpub2.
  - intros calls.
    destruct (invoke_all_publisher MessageT t1 calls st1 Hpub)
      as (_ & _ & events & Htr & Hev).
    exists events. split; [exact Htr|].
    intros t2 m2 q Hne. split; intros Hin; apply Hev in Hin as [Hp Ha].
    + apply Hne. by apply (Hp t2 m2).
    + by apply (Ha t2 q).
Qed.

(** C10 with two topics for the same message type. *)
Lemma C10_first_topic_is_kept_witness :
  let st := fresh (fun _ _ _ => false) ∅ in
  let st1 := (publish Gpgga "first" "/gpgga" st).2 in
  publish Gpgga "second" "/other" st1
  = (Ok tt, emit (EPublish Gpgga "/gpgga" "second") st1).
Proof.
  intros st st1.
  exact (proj1 (proj2 (C10_first_topic_is_kept Gpgga "first" "/gpgga" st
                         eq_refl)) [] "second" "/other").
Defined.

(** C6: [Subscribe] reads [publish/gpgga], taking [true] when the parameter
    is not set.  With the flag on it registers one handler, for the
    identifier ["$GPGGA"], after the handlers already there: the callback
    that calls [publish<nmea_msgs::Gpgga>] with the topic ["/gpgga"].  A
    message then handled for ["$GPGGA"] on a node with no other handlers and
    no publisher yet is advertised and published on ["/gpgga"] and nowhere
    else.  With the flag off [IO], and so the registry, is left as it
    was. *)
Theorem C6_gpgga_subscription (st : State) :
  let enabled := ros.param (ros.getParam_bool (nh st) "publish/gpgga") true in
  let r := Subscribe st in
  r.1 = Ok tt
  /\ publish_gpgga_ r.2 = enabled
  /\ (nh st !! "publish/gpgga" = None -> enabled = true)
  /\ (enabled = true ->
      io_comm_mosaic.handlers_ (IO r.2)
      = io_comm_mosaic.handlers_ (IO st)
        ++ [("$GPGGA", bind_publish Gpgga "/gpgga")]
      /\ io_comm_mosaic.count "$GPGGA" (io_comm_mosaic.handlers_ (IO r.2))
         = S (io_comm_mosaic.count "$GPGGA" (io_comm_mosaic.handlers_ (IO st)))
      /\ (forall m : Message,
            io_comm_mosaic.handlers_ (IO st) = [] ->
            publishers st !! Gpgga = None ->
            (handle "$GPGGA" m r.2).1 = Ok tt
            /\ trace (handle "$GPGGA" m r.2).2
               = trace st ++ [EAdvertise Gpgga "/gpgga" ROSQueueSize;
                              EPublish Gpgga "/gpgga" m]))
  /\ (enabled = false ->
      IO r.2 = IO st
      /\ io_comm_mosaic.count "$GPGGA" (io_comm_mosaic.handlers_ (IO r.2))
         = io_comm_mosaic.count "$GPGGA" (io_comm_mosaic.handlers_ (IO st))).
Proof.
  intros enabled r.
  assert (Hr : r = (Ok tt,
                    if enabled then
                      set_IO {| io_comm_mosaic.handlers_ :=
                                  io_comm_mosaic.insert "$GPGGA"
                                    (bind_publish Gpgga "/gpgga")
                                    (io_comm_mosaic.handlers_ (IO st));
                                io_comm_mosaic.serial_attempts :=
                                  io_comm_mosaic.serial_attempts (IO st) |}
                        (set_publish_gpgga_ true st)
                    else set_publish_gpgga_ false st)).
  { subst r. unfold Subscribe, bind, gets, modify, ret. cbn.
    fold enabled. by destruct enabled. }
  rewrite Hr. cbn [fst snd]. split; [done|].
  split; [by destruct enabled|]. split.
  { intros Habsent. subst enabled. unfold ros.getParam_bool.
    by rewrite Habsent. }
  split; intros ->.
  - cbn. split; [done|]. split.
    + unfold io_comm_mosaic.count.
      rewrite (handlers_for_insert "$GPGGA" "$GPGGA"), length_app.
      rewrite decide_True by done. cbn [length]. lia.
    + intros m Hnone Hpub. unfold handle, bind, gets. cbn beta iota.
      cbn [IO set_IO io_comm_mosaic.get_handlers io_comm_mosaic.handlers_].
      rewrite Hnone. cbn [io_comm_mosaic.insert app io_comm_mosaic.dispatch
                          io_comm_mosaic.handlers_for map].
      rewrite decide_True by done. cbn [map invoke_all invoke].
      unfold bind. rewrite publish_eq. cbn [publishers set_IO
                                            set_publish_gpgga_].
      rewrite Hpub. cbn. by rewrite <- app_assoc.
  - cbn. split; [|done]. by destruct (IO st).
Qed.

(** C6 on a fresh node without parameters, and with the flag set to
    false. *)
Lemma C6_gpgga_subscription_witness :
  let st := fresh (fun _ _ _ => false) ∅ in
  let st' := fresh (fun _ _ _ => false)
               {["publish/gpgga" := ros.TypeBoolean false]} in
  trace (handle "$GPGGA" "fix" (Subscribe st).2).2
  = [EAdvertise Gpgga "/gpgga" 1; EPublish Gpgga "/gpgga" "fix"]
  /\ IO (Subscribe st').2 = IO st'.
Proof.
  intros st st'.
  destruct (C6_gpgga_subscription st) as (_ & _ & _ & Hon & _).
  destruct (Hon eq_refl) as (_ & _ & Hforward).
  destruct (C6_gpgga_subscription st') as (_ & _ & _ & _ & Hoff).
  split.
  - exact (proj2 (Hforward "fix" eq_refl eq_refl)).
  - exact (proj1 (Hoff eq_refl)).
Defined.

(** ** ASCII frames *)

Section ascii_frames.

Import frame_decoder.

Lemma string_forall_append (P : ascii -> bool) (s t : string) :
  string_forall P (s +:+ t) = string_forall P s && string_forall P t.
Proof.
  induction s as [|a s IH]; [reflexivity|].
  rewrite append_cons. cbn. by rewrite IH, andb_assoc.
Qed.








End ascii_frames.



(** * Further properties of the node *)

(** ** What the pattern of [InitializeIO] accepts and captures *)

Section descriptors.

Import boost.

Lemma colon_is_no_digit (s t : string) :
  string_forall is_digit (s +:+ ":" +:+ t) = false.
Proof.
  rewrite string_forall_append. cbn. by rewrite andb_false_r.
Qed.

(** A descriptor splits into host and port at its last colon only. *)
Lemma host_port_unique (h p h' p' : string) :
  string_forall is_digit p = true -> string_forall is_digit p' = true ->
  h +:+ ":" +:+ p = h' +:+ ":" +:+ p' -> h = h' /\ p = p'.
Proof.
  intros Hp Hp'. revert h'.
  induction h as [|a h IH]; intros [|b h'] Heq.
  - rewrite !append_nil_l in Heq. injection Heq as Heq.
    by rewrite !append_nil_l in Heq.
  - rewrite append_nil_l, append_cons in Heq. injection Heq as _ Heq.
    rewrite append_nil_l in Heq. subst p.
    by rewrite colon_is_no_digit in Hp.
  - rewrite append_nil_l, append_cons in Heq. injection Heq as _ Heq.
    rewrite append_nil_l in Heq. subst p'.
    by rewrite colon_is_no_digit in Hp'.
  - rewrite !append_cons in Heq. injection Heq as -> Heq.
    by destruct (IH h' Heq) as [-> ->].
Qed.

End descriptors.

(** X1: [regex_match] with the pattern of [InitializeIO] succeeds on exactly
    the descriptors made of [tcp] or [udp], [://], a non-empty host, a colon
    and a non-empty run of decimal digits.  Everything else, a descriptor
    with another protocol, without port or with a port that is not a number,
    is not matched. *)
Theorem X1_device_regex_accepts (d : string) :
  is_Some (boost.regex_match d device_regex) <-> network_descriptor d.
Proof.
  split.
  - intros [m Hm]. by eapply device_regex_sound.
  - intros (proto & host & port & Hproto & Hhost & Hport & Hdig & ->).
    destruct (device_regex_network proto host port) as (m & Hm & _);
      [done..|].
    by exists m.
Qed.

(** X2: on a descriptor [proto://host:port] the sub-matches are the whole
    descriptor, the protocol, the host and the port.  The host is everything
    up to the last colon, so it may contain colons itself. *)
Theorem X2_device_regex_captures (proto host port : string) :
  proto = "tcp" \/ proto = "udp" ->
  host <> "" -> port <> "" -> string_forall boost.is_digit port = true ->
  let d := proto +:+ "://" +:+ host +:+ ":" +:+ port in
  exists m,
    boost.regex_match d device_regex = Some m
    /\ boost.sub_match m 0 = d
    /\ boost.sub_match m 1 = proto
    /\ boost.sub_match m 2 = host
    /\ boost.sub_match m 3 = port.
Proof.
  intros Hproto Hhost Hport Hdig d.
  destruct (device_regex_network proto host port) as (m & Hm & _); [done..|].
  exists m. split; [exact Hm|].
  fold d in Hm. unfold d in Hm. rewrite regex_match_scheme in Hm by done.
  apply plus_loop_sound in Hm as (a & s1 & Hrest & _ & _ & Hm).
  unfold after_scheme in Hm.
  destruct (strip_prefix ":" s1) as [s2|] eqn:H1; [|done].
  apply strip_prefix_Some in H1 as ->.
  apply plus_loop_sound in Hm as (b & s3 & -> & _ & Hb & Hm).
  destruct s3; [|done]. injection Hm as <-.
  rewrite append_nil_r in Hrest.
  destruct (host_port_unique host port a b Hdig Hb Hrest) as [<- <-].
  rewrite (consumed_append port ""), append_nil_r.
  rewrite (consumed_append host (":" +:+ port)).
  unfold boost.sub_match. by simplify_map_eq.
Qed.

(** X2 on a host that contains a colon. *)
Lemma X2_device_regex_captures_witness :
  exists m,
    boost.regex_match "tcp://fe80::1:28784" device_regex = Some m
    /\ boost.sub_match m 2 = "fe80::1"
    /\ boost.sub_match m 3 = "28784".
Proof.
  destruct (X2_device_regex_captures "tcp" "fe80::1" "28784"
              (or_introl eq_refl) ltac:(discriminate) ltac:(discriminate)
              eq_refl) as (m & Hm & _ & _ & H2 & H3).
  by exists m.
Defined.

(** ** What each operation does to the state *)

Section effects.

Lemma InitializeIO_eq (st : State) :
  InitializeIO st
  = match boost.regex_match (device_ st) device_regex with
    | Some m =>
        if decide (boost.sub_match m 1 = "tcp") then (Ok tt, st)
        else (Throw ("Protocol '" +:+ boost.sub_match m 1
                     +:+ "' is unsupported"), st)
    | None =>
        (Ok tt,
         emit (EInitializeSerial (device_ st) (baudrate_ st)
                 (serial_outcome st
                    (io_comm_mosaic.serial_attempts (IO st))
                    (device_ st) (baudrate_ st)))
           (set_IO {| io_comm_mosaic.handlers_ :=
                        io_comm_mosaic.handlers_ (IO st);
                      io_comm_mosaic.serial_attempts :=
                        S (io_comm_mosaic.serial_attempts (IO st)) |} st))
    end.
Proof.
  unfold InitializeIO, bind, gets. cbn beta iota.
  destruct (boost.regex_match _ _); [|reflexivity].
  by destruct (decide _).
Qed.

Lemma Reconnect_eq (st : State) :
  Reconnect st
  = (let opened :=
       serial_outcome st (io_comm_mosaic.serial_attempts (IO st))
         (device_ st) (baudrate_ st) in
     let st1 :=
       emit (EInitializeSerial (device_ st) (baudrate_ st) opened)
         (set_IO {| io_comm_mosaic.handlers_ :=
                      io_comm_mosaic.handlers_ (IO st);
                    io_comm_mosaic.serial_attempts :=
                      S (io_comm_mosaic.serial_attempts (IO st)) |} st) in
     let st2 := if opened then set_connected_ true st1 else st1 in
     (Ok tt,
      if opened || connected_ st then
        emit ETimerStop
          (set_reconnect_timer_ (ros.stop (reconnect_timer_ st)) st2)
      else st2)).
Proof.
  unfold Reconnect, bind, gets, modify, ret. rewrite InitializeSerial_eq.
  cbn. destruct (serial_outcome st _ _ _); cbn; [reflexivity|].
  by destruct (connected_ st).
Qed.

Lemma Subscribe_eq (st : State) :
  Subscribe st
  = (Ok tt,
     if gpgga_enabled st then
       set_IO {| io_comm_mosaic.handlers_ :=
                   io_comm_mosaic.insert "$GPGGA"
                     (bind_publish Gpgga "/gpgga")
                     (io_comm_mosaic.handlers_ (IO st));
                 io_comm_mosaic.serial_attempts :=
                   io_comm_mosaic.serial_attempts (IO st) |}
         (set_publish_gpgga_ true st)
     else set_publish_gpgga_ false st).
Proof.
  unfold Subscribe, bind, gets, modify, ret, gpgga_enabled. cbn.
  by destruct (ros.param _ _).
Qed.

Lemma timer_fires_eq (st : State) :
  timer_fires st
  = if ros.running (reconnect_timer_ st) then Reconnect st else (Ok tt, st).
Proof.
  unfold timer_fires, bind, gets. cbn beta iota.
  by destruct (ros.running _).
Qed.

(** Handling a message runs callbacks that only publish: nothing but the
    publishers and the trace changes, and the trace grows by one
    publication per callback, each of the message given, with an
    advertisement before some of them. *)
Lemma invoke_all_effect (invs : list (Callback * Message)) (st : State) :
  let st' := (invoke_all invs st).2 in
  (invoke_all invs st).1 = Ok tt
  /\ nh st' = nh st /\ serial_outcome st' = serial_outcome st
  /\ IO st' = IO st /\ device_ st' = device_ st
  /\ baudrate_ st' = baudrate_ st
  /\ reconnect_timer_ st' = reconnect_timer_ st
  /\ connected_ st' = connected_ st
  /\ publish_gpgga_ st' = publish_gpgga_ st
  /\ exists events,
       trace st' = trace st ++ events
       /\ filter is_serial_attempt events = []
       /\ (ETimerStop ∉ events)
       /\ (exists ms,
             filter is_publish events = ms
             /\ length ms = length invs
             /\ forall i e inv,
                  ms !! i = Some e -> invs !! i = Some inv ->
                  exists T t, e = EPublish T t inv.2).
Proof.
  revert st. induction invs as [|[[T topic] m] invs IH]; intros st st'.
  - subst st'. cbn. repeat split; try done. exists [].
    rewrite app_nil_r. repeat split; try done.
    + by intros ?%elem_of_nil.
    + exists []. by repeat split.
  - subst st'. cbn [invoke_all invoke]. unfold bind. rewrite publish_eq.
    set (st1 := match publishers st !! T with
                | Some _ => _ | None => _ end).
    destruct (IH st1) as (Hok & H1 & H2 & H3 & H4 & H5 & H6 & H7 & H8
                          & events & Htr & Hser & Hstop & ms & Hms & Hlen & Hm).
    assert (Hst1 : nh st1 = nh st /\ serial_outcome st1 = serial_outcome st
                   /\ IO st1 = IO st /\ device_ st1 = device_ st
                   /\ baudrate_ st1 = baudrate_ st
                   /\ reconnect_timer_ st1 = reconnect_timer_ st
                   /\ connected_ st1 = connected_ st
                   /\ publish_gpgga_ st1 = publish_gpgga_ st
                   /\ exists pre t,
                        trace st1 = trace st ++ pre ++ [EPublish T t m]
                        /\ filter is_serial_attempt pre = []
                        /\ filter is_publish pre = []
                        /\ (ETimerStop ∉ pre)).
    { subst st1. destruct (publishers st !! T) as [p|].
      - repeat split; try done. exists [], p. repeat split; try done.
        by intros ?%elem_of_nil.
      - repeat split; try done.
        exists [EAdvertise T topic ROSQueueSize], topic. cbn.
        rewrite <- app_assoc. repeat split; try done.
        intros Hin%list_elem_of_singleton. discriminate Hin. }
    destruct Hst1 as (G1 & G2 & G3 & G4 & G5 & G6 & G7 & G8
                      & pre & t & Gtr & Gser & Gpub & Gstop).
    split; [exact Hok|].
    repeat (split; [congruence|]).
    exists (pre ++ [EPublish T t m] ++ events).
    split; [rewrite Htr, Gtr; by rewrite <- !app_assoc|].
    split; [by rewrite !filter_app, Gser, Hser|].
    split.
    { rewrite !not_elem_of_app. repeat split; try done.
      intros Hin%list_elem_of_singleton. discriminate Hin. }
    exists (EPublish T t m :: ms).
    split; [rewrite !filter_app, Gpub, Hms; reflexivity|].
    split; [cbn; by rewrite Hlen|].
    intros [|i] e inv He Hinv; cbn in He, Hinv.
    + injection He as <-. injection Hinv as <-. by exists T, t.
    + by eapply Hm.
Qed.

End effects.

Section steps.

(** Every member of a short explicit list of events that is a serial
    attempt is the attempt expected. *)
Local Ltac one_attempt :=
  match goal with
  | |- context [length ?l] => change (length l) with 1%nat; cbn; lia
  end.

Local Ltac serial_events :=
  let e := fresh "e" in let He := fresh "He" in let Hs := fresh "Hs" in
  intros e He Hs;
  repeat (apply elem_of_cons in He as [-> | He];
          [discriminate Hs || by eexists|]);
  by apply elem_of_nil in He.

(** One operation of the node, whatever it is: the parameter server and
    the world are left alone, the timer is not started, the trace only
    grows, the count of serial attempts grows with it, and every attempt is
    made on the device and at the baud rate of the node. *)
Lemma run_op_effect (op : Op) (st : State) :
  let st' := (run_op op st).2 in
  nh st' = nh st /\ serial_outcome st' = serial_outcome st
  /\ (ros.running (reconnect_timer_ st') = true ->
      ros.running (reconnect_timer_ st) = true)
  /\ (op <> OpGetROSParams ->
      device_ st' = device_ st /\ baudrate_ st' = baudrate_ st)
  /\ exists events,
       trace st' = trace st ++ events
       /\ io_comm_mosaic.serial_attempts (IO st')
          = (io_comm_mosaic.serial_attempts (IO st)
             + length (filter is_serial_attempt events))%nat
       /\ (forall e, e ∈ events -> is_serial_attempt e = true ->
           exists opened,
             e = EInitializeSerial (device_ st) (baudrate_ st) opened)
       /\ ((forall key m, op <> OpHandle key m) ->
           publishers st' = publishers st
           /\ filter is_publish events = []
           /\ forall T, filter (advertises T) events = []).
Proof.
  assert (HR : let st' := (Reconnect st).2 in
    nh st' = nh st /\ serial_outcome st' = serial_outcome st
    /\ (ros.running (reconnect_timer_ st') = true ->
        ros.running (reconnect_timer_ st) = true)
    /\ (device_ st' = device_ st /\ baudrate_ st' = baudrate_ st)
    /\ exists events,
         trace st' = trace st ++ events
         /\ io_comm_mosaic.serial_attempts (IO st')
            = (io_comm_mosaic.serial_attempts (IO st)
               + length (filter is_serial_attempt events))%nat
         /\ (forall e, e ∈ events -> is_serial_attempt e = true ->
             exists opened,
               e = EInitializeSerial (device_ st) (baudrate_ st) opened)
         /\ ((forall key m, op <> OpHandle key m) ->
             publishers st' = publishers st
             /\ filter is_publish events = []
             /\ forall T, filter (advertises T) events = [])).
  { rewrite Reconnect_eq. cbn zeta.
    set (opened := serial_outcome st _ _ _).
    destruct opened eqn:Ho; [|destruct (connected_ st) eqn:Hc]; cbn.
    - split; [done|]. split; [done|].
      split; [by rewrite running_stop|]. split; [done|].
      exists [EInitializeSerial (device_ st) (baudrate_ st) true;
              ETimerStop].
      split; [by rewrite <- app_assoc|]. split; [one_attempt|].
      split; [serial_events|]. by intros _.
    - split; [done|]. split; [done|].
      split; [by rewrite running_stop|]. split; [done|].
      exists [EInitializeSerial (device_ st) (baudrate_ st) false;
              ETimerStop].
      split; [by rewrite <- app_assoc|]. split; [one_attempt|].
      split; [serial_events|]. by intros _.
    - split; [done|]. split; [done|]. split; [done|]. split; [done|].
      exists [EInitializeSerial (device_ st) (baudrate_ st) false].
      split; [done|]. split; [one_attempt|].
      split; [serial_events|]. by intros _. }
  assert (Hnone : forall st' : State,
    trace st' = trace st ->
    io_comm_mosaic.serial_attempts (IO st')
    = io_comm_mosaic.serial_attempts (IO st) ->
    publishers st' = publishers st ->
    exists events,
      trace st' = trace st ++ events
      /\ io_comm_mosaic.serial_attempts (IO st')
         = (io_comm_mosaic.serial_attempts (IO st)
            + length (filter is_serial_attempt events))%nat
      /\ (forall e, e ∈ events -> is_serial_attempt e = true ->
          exists opened,
            e = EInitializeSerial (device_ st) (baudrate_ st) opened)
      /\ ((forall key m, op <> OpHandle key m) ->
          publishers st' = publishers st
          /\ filter is_publish events = []
          /\ forall T, filter (advertises T) events = [])).
  { intros st' Htr Hat Hpub. exists []. rewrite app_nil_r.
    split; [done|]. split; [cbn; lia|].
    split; [by intros e ?%elem_of_nil|]. by intros _. }
  destruct op; cbn [run_op].
  - rewrite GetROSParams_returns. cbn [snd].
    split; [done|]. split; [done|]. split; [done|]. split; [done|].
    by apply Hnone.
  - rewrite InitializeIO_eq.
    destruct (boost.regex_match (device_ st) device_regex) as [m|].
    + assert (Hsame : (if decide (boost.sub_match m 1 = "tcp")
                       then (Ok tt, st)
                       else (Throw ("Protocol '" +:+ boost.sub_match m 1
                                    +:+ "' is unsupported"), st)).2 = st)
        by (by destruct (decide _)).
      rewrite Hsame.
      split; [done|]. split; [done|]. split; [done|]. split; [done|].
      by apply Hnone.
    + cbn. split; [done|]. split; [done|]. split; [done|]. split; [done|].
      exists [EInitializeSerial (device_ st) (baudrate_ st)
                (serial_outcome st
                   (io_comm_mosaic.serial_attempts (IO st))
                   (device_ st) (baudrate_ st))].
      split; [done|]. split; [one_attempt|].
      split; [serial_events|]. by intros _.
  - destruct HR as (H1 & H2 & H3 & H4 & Hev).
    split; [done|]. split; [done|]. split; [done|]. by split.
  - rewrite Subscribe_eq. cbn [snd].
    destruct (gpgga_enabled st).
    + split; [done|]. split; [done|]. split; [done|]. split; [done|].
      by apply Hnone.
    + split; [done|]. split; [done|]. split; [done|]. split; [done|].
      by apply Hnone.
  - rewrite timer_fires_eq.
    destruct (ros.running (reconnect_timer_ st)) eqn:Hrun.
    + destruct HR as (H1 & H2 & H3 & H4 & Hev).
      split; [done|]. split; [done|]. split; [done|]. by split.
    + cbn [snd].
      split; [done|]. split; [done|]. split; [by rewrite Hrun|].
      split; [done|]. by apply Hnone.
  - unfold handle, bind, gets. cbn beta iota.
    destruct (invoke_all_effect
                (io_comm_mosaic.dispatch key m
                   (io_comm_mosaic.get_handlers (IO st))) st)
      as (_ & H1 & H2 & H3 & H4 & H5 & H6 & H7 & _
          & events & Htr & Hser & _).
    split; [done|]. split; [done|]. split; [by rewrite H6|].
    split; [done|].
    exists events. rewrite Hser, H3.
    split; [done|]. split; [cbn; lia|]. split.
    + intros e He Hs.
      assert (Hin : e ∈ filter is_serial_attempt events)
        by (apply list_elem_of_filter; by rewrite Hs).
      rewrite Hser in Hin. by apply elem_of_nil in Hin.
    + intros Hno. by destruct (Hno key m).
Qed.

End steps.

(** ** Start-up *)

Section startup.

Lemma MinROSNode_eq (st : State) :
  MinROSNode st
  = match InitializeIO (GetROSParams st).2 with
    | (Ok _, st2) => Subscribe st2
    | (Throw what, st2) => (Throw what, st2)
    end.
Proof.
  unfold MinROSNode. unfold bind at 1. rewrite GetROSParams_returns.
  reflexivity.
Qed.

Lemma GetROSParams_device (st : State) :
  device_ (GetROSParams st).2 = configured_device (nh st).
Proof. by rewrite GetROSParams_returns. Qed.

Lemma tcp_is_not_udp (s t : string) : "tcp" +:+ s <> "udp" +:+ t.
Proof. rewrite !append_cons. discriminate. Qed.

(** The constructor throws for a [udp] descriptor and for nothing else. *)
Lemma MinROSNode_throws (st : State) (what : string) :
  (MinROSNode st).1 = Throw what
  <-> (exists host port,
         host <> "" /\ port <> ""
         /\ string_forall boost.is_digit port = true
         /\ configured_device (nh st) = "udp" +:+ "://" +:+ host +:+ ":" +:+ port)
      /\ what = "Protocol 'udp' is unsupported".
Proof.
  rewrite MinROSNode_eq, InitializeIO_eq, GetROSParams_device.
  set (st1 := (GetROSParams st).2).
  destruct (boost.regex_match (configured_device (nh st)) device_regex)
    as [m|] eqn:Hm.
  - destruct (device_regex_sound _ _ Hm)
      as (proto & host & port & Hproto & Hhost & Hport & Hdig & Hd).
    destruct (device_regex_network proto host port) as (m' & Hm' & Hsub);
      [done..|].
    rewrite <- Hd, Hm in Hm'. injection Hm' as <-. rewrite Hsub.
    destruct Hproto as [-> | ->].
    + rewrite decide_True by done. rewrite Subscribe_eq. cbn [fst].
      split; [done|]. intros [(h & p & _ & _ & _ & Hudp) _].
      rewrite Hd in Hudp. by apply tcp_is_not_udp in Hudp.
    + rewrite decide_False by done. cbn [fst]. split.
      * intros [= <-]. split; [|done]. by exists host, port.
      * by intros [_ ->].
  - rewrite Subscribe_eq. cbn [fst]. split; [done|].
    intros [(h & p & Hh & Hp & Hdig & Hudp) _].
    destruct (device_regex_network "udp" h p) as (m & Hm' & _); [by right|done..|].
    rewrite <- Hudp, Hm in Hm'. discriminate Hm'.
Qed.

End startup.

(** X3: the [tcp] branch of [InitializeIO] is empty.  On a descriptor
    [tcp://host:port] it returns without throwing and without changing the
    state: nothing is connected.  The constructor then goes on as if a
    connection had been set up; it has made no connect attempt, logged no
    event, and the node is not marked connected. *)
Theorem X3_tcp_connects_nothing (host port : string) :
  host <> "" -> port <> "" -> string_forall boost.is_digit port = true ->
  let d := "tcp" +:+ "://" +:+ host +:+ ":" +:+ port in
  (forall st : State, device_ st = d -> InitializeIO st = (Ok tt, st))
  /\ (forall (outcome : nat -> string -> Z -> bool) (params : ros.param_server),
        params !! "device" = Some (ros.TypeString d) ->
        let r := MinROSNode (fresh outcome params) in
        r.1 = Ok tt
        /\ trace r.2 = []
        /\ io_comm_mosaic.serial_attempts (IO r.2) = 0%nat
        /\ connected_ r.2 = false).
Proof.
  intros Hhost Hport Hdig d.
  assert (Hio : forall st, device_ st = d -> InitializeIO st = (Ok tt, st)).
  { intros st Hdev.
    by rewrite (InitializeIO_network st "tcp" host port) by (done || by left). }
  split; [exact Hio|].
  intros outcome params Hparam r. subst r.
  rewrite MinROSNode_eq, Hio.
  - rewrite Subscribe_eq, GetROSParams_returns. cbn [fst snd].
    by destruct (gpgga_enabled _).
  - rewrite GetROSParams_device. unfold configured_device, ros.getParam_string.
    cbn [nh fresh]. by rewrite Hparam.
Qed.

(** X3 at [tcp://10.0.0.1:2000]. *)
Lemma X3_tcp_connects_nothing_witness :
  let st := set_device_ "tcp://10.0.0.1:2000" (fresh (fun _ _ _ => true) ∅) in
  InitializeIO st = (Ok tt, st).
Proof.
  intros st.
  apply (proj1 (X3_tcp_connects_nothing "10.0.0.1" "2000"
                  ltac:(discriminate) ltac:(discriminate) eq_refl)).
  reflexivity.
Defined.

(** X4: [main] ends by an exception exactly when the configured device,
    the [device] parameter or its default, is a well-formed [udp]
    descriptor, and the exception then says ["Protocol 'udp' is
    unsupported"].  In every other case it returns 0: no other parameter
    value and no failure to open the serial port stops start-up. *)
Theorem X4_main_fails_only_for_udp
    (outcome : nat -> string -> Z -> bool) (params : ros.param_server) :
  let udp_configured :=
    exists host port,
      host <> "" /\ port <> "" /\ string_forall boost.is_digit port = true
      /\ configured_device params = "udp" +:+ "://" +:+ host +:+ ":" +:+ port in
  (forall what,
      (main outcome params).1.1 = Throw what
      <-> udp_configured /\ what = "Protocol 'udp' is unsupported")
  /\ (~ udp_configured -> (main outcome params).1.1 = Ok 0).
Proof.
  intros udp_configured.
  assert (Hmain : forall what,
            (main outcome params).1.1 = Throw what
            <-> (MinROSNode (fresh outcome params)).1 = Throw what).
  { intros what. unfold main.
    destruct (MinROSNode (fresh outcome params)) as [[[]|w] st];
      cbn; split; intros [= ?]; by subst. }
  split.
  - intros what. rewrite Hmain. apply MinROSNode_throws.
  - intros Hno. clear Hmain. unfold main.
    destruct (MinROSNode (fresh outcome params)) as [[[]|w] st] eqn:Hctor;
      [reflexivity|].
    destruct Hno.
    apply (MinROSNode_throws (fresh outcome params) w). by rewrite Hctor.
Qed.

(** X4 with the default device. *)
Lemma X4_main_fails_only_for_udp_witness :
  (main (fun _ _ _ => false) ∅).1.1 = Ok 0.
Proof.
  apply (proj2 (X4_main_fails_only_for_udp (fun _ _ _ => false) ∅)).
  intros (host & port & _ & _ & _ & Hd). discriminate Hd.
Defined.


(** X15: whatever the parameters and whether or not the serial port opens,
    the constructor makes at most one connect attempt, leaves [connected_]
    and the reconnect timer as they were, and so ends with a node that is
    not marked connected even when the port did open. *)
Theorem X15_constructor_never_marks_connected (st : State) :
  let r := MinROSNode st in
  connected_ r.2 = connected_ st
  /\ reconnect_timer_ r.2 = reconnect_timer_ st
  /\ (io_comm_mosaic.serial_attempts (IO r.2)
      <= S (io_comm_mosaic.serial_attempts (IO st)))%nat
  /\ (forall outcome params,
        connected_ (MinROSNode (fresh outcome params)).2 = false).
Proof.
  assert (H : forall st0 : State,
            let r := MinROSNode st0 in
            connected_ r.2 = connected_ st0
            /\ reconnect_timer_ r.2 = reconnect_timer_ st0
            /\ (io_comm_mosaic.serial_attempts (IO r.2)
                <= S (io_comm_mosaic.serial_attempts (IO st0)))%nat).
  { intros st0 r. subst r. rewrite MinROSNode_eq, InitializeIO_eq.
    rewrite GetROSParams_returns. cbn [snd device_ set_baudrate_ set_device_].
    destruct (boost.regex_match _ device_regex) as [m|].
    - destruct (decide (boost.sub_match m 1 = "tcp")).
      + rewrite Subscribe_eq. cbn [snd].
        destruct (gpgga_enabled _); cbn; repeat split; lia.
      + cbn. repeat split; lia.
    - rewrite Subscribe_eq. cbn [snd].
      destruct (gpgga_enabled _); cbn; repeat split; lia. }
  intros r. destruct (H st) as (H1 & H2 & H3).
  split; [done|]. split; [done|]. split; [done|].
  intros outcome params. by destruct (H (fresh outcome params)) as [-> _].
Qed.

(** ** Reading integer arrays *)

Section integer_arrays.

Lemma cast_id (U : cpp.int_type) (v : Z) :
  0 < cpp.width U -> cpp.lowest U <= v <= cpp.max U -> cpp.cast U v = v.
Proof.
  intros Hw. unfold cpp.lowest, cpp.cast, cpp.max.
  assert (Hpow : 2 ^ cpp.width U = 2 * 2 ^ (cpp.width U - 1)).
  { rewrite <- Z.pow_succ_r by lia. f_equal. lia. }
  assert (Hpos : 0 < 2 ^ (cpp.width U - 1)) by (apply Z.pow_pos_nonneg; lia).
  destruct (cpp.is_signed U); intros Hv.
  - rewrite Z.mod_small by lia. lia.
  - apply Z.mod_small. lia.
Qed.

Lemma common_type_wide (U : cpp.int_type) :
  32 <= cpp.width U -> cpp.common_type cpp.int U = U.
Proof.
  destruct U as [s w]. cbn [cpp.width]. intros Hw.
  unfold cpp.common_type, cpp.promote.
  change (cpp.width cpp.int <? 32) with false. cbn [cpp.width].
  replace (w <? 32) with false by (symmetry; lia).
  change (cpp.is_signed cpp.int) with true.
  change (cpp.width cpp.int) with 32.
  destruct s; cbn [Bool.eqb cpp.is_signed cpp.width cpp.int].
  - destruct (32 <? w) eqn:H32; [done|]. f_equal. lia.
  - by replace (32 <=? w) with true by (symmetry; lia).
Qed.

Lemma common_type_narrow (U : cpp.int_type) :
  cpp.width U < 32 -> cpp.common_type cpp.int U = cpp.int.
Proof.
  intros Hw. unfold cpp.common_type, cpp.promote.
  change (cpp.width cpp.int <? 32) with false.
  by replace (cpp.width U <? 32) with true by (symmetry; lia).
Qed.

Lemma limits_ordered (U : cpp.int_type) :
  0 < cpp.width U -> cpp.lowest U <= cpp.max U.
Proof. intros Hw. pose proof (cast_in_range U 0 Hw). lia. Qed.

(** The limits of a type narrower than [int] are values of [int]. *)
Lemma narrow_limits (U : cpp.int_type) :
  0 < cpp.width U < 32 ->
  cpp.lowest cpp.int <= cpp.lowest U /\ cpp.max U <= cpp.max cpp.int.
Proof.
  intros Hw. unfold cpp.lowest, cpp.max. cbn [cpp.is_signed cpp.width cpp.int].
  assert (H1 : 2 ^ (cpp.width U - 1) <= 2 ^ 31)
    by (apply Z.pow_le_mono_r; lia).
  assert (H2 : 2 ^ cpp.width U <= 2 ^ 31) by (apply Z.pow_le_mono_r; lia).
  assert (H3 : 0 < 2 ^ (cpp.width U - 1)) by (apply Z.pow_pos_nonneg; lia).
  destruct (cpp.is_signed U); lia.
Qed.

(** An [int] checked against the limits of a type at least as wide as
    [int]: the comparison is made in that type, and passes. *)
Lemma checkRange_as_wide (U : cpp.int_type) (v : Z) (name : string)
    (st : State) :
  32 <= cpp.width U ->
  checkRange_as cpp.int U v (cpp.lowest U) (cpp.max U) name st = (Ok tt, st).
Proof.
  intros Hw. unfold checkRange_as, cpp.lt, cpp.gt.
  rewrite common_type_wide by done.
  pose proof (limits_ordered U ltac:(lia)).
  rewrite !(cast_id U (cpp.lowest U)), !(cast_id U (cpp.max U)) by lia.
  pose proof (cast_in_range U v ltac:(lia)) as [Hlo Hhi].
  replace (cpp.cast U v <? cpp.lowest U) with false by (symmetry; lia).
  replace (cpp.cast U v >? cpp.max U) with false by (symmetry; lia).
  reflexivity.
Qed.

(** Against the limits of a narrower type the comparison is made in [int]
    and is the comparison of the numbers. *)
Lemma checkRange_as_narrow (U : cpp.int_type) (v : Z) (name : string)
    (st : State) :
  0 < cpp.width U < 32 ->
  cpp.lowest cpp.int <= v <= cpp.max cpp.int ->
  checkRange_as cpp.int U v (cpp.lowest U) (cpp.max U) name st
  = if (v <? cpp.lowest U) || (v >? cpp.max U) then
      (Throw (cpp.c_str
                ("Invalid settings: " +:+ name +:+ " must be in range ["
                 +:+ cpp.show U (cpp.lowest U) +:+ ", "
                 +:+ cpp.show U (cpp.max U) +:+ "].")), st)
    else (Ok tt, st).
Proof.
  intros Hw Hv. unfold checkRange_as, cpp.lt, cpp.gt.
  rewrite common_type_narrow by lia.
  pose proof (narrow_limits U Hw) as [Hlo Hhi].
  pose proof (limits_ordered U ltac:(lia)).
  rewrite (cast_id cpp.int v), (cast_id cpp.int (cpp.lowest U)),
    (cast_id cpp.int (cpp.max U)) by (done || lia).
  by destruct ((v <? cpp.lowest U) || (v >? cpp.max U)).
Qed.

Lemma checkRange_from_wide (U : cpp.int_type) (i : nat) (val : list Z)
    (name : string) (st : State) :
  32 <= cpp.width U ->
  checkRange_from cpp.int U i val (cpp.lowest U) (cpp.max U) name st
  = (Ok tt, st).
Proof.
  intros Hw. revert i. induction val as [|v val IH]; intros i; [done|].
  cbn [checkRange_from]. unfold bind. by rewrite checkRange_as_wide, IH.
Qed.

Lemma checkRange_from_narrow (U : cpp.int_type) (i : nat)
    (good : list Z) (rest : list Z) (name : string) (st : State) :
  0 < cpp.width U < 32 ->
  Forall (fun v => cpp.lowest U <= v <= cpp.max U) good ->
  checkRange_from cpp.int U i (good ++ rest) (cpp.lowest U) (cpp.max U)
    name st
  = checkRange_from cpp.int U (i + length good) rest (cpp.lowest U)
      (cpp.max U) name st.
Proof.
  intros Hw Hgood. revert i.
  induction Hgood as [|v good Hv Hgood IH]; intros i.
  - cbn. by rewrite Nat.add_0_r.
  - cbn [app checkRange_from length]. unfold bind at 1.
    pose proof (narrow_limits U Hw) as [Hlo Hhi].
    rewrite checkRange_as_narrow by (done || lia).
    replace (v <? cpp.lowest U) with false by (symmetry; lia).
    replace (v >? cpp.max U) with false by (symmetry; lia).
    cbn [orb]. rewrite IH. f_equal. lia.
Qed.

End integer_arrays.

(** X6: for an element type [U] of 32 bits or more, the array form of
    [GetROSInt] never throws.  Each [int] element is compared with the
    limits of [U] in the type [U] itself, so also a negative element passes
    the check for an unsigned [U].  A found array is converted element by
    element and put in front of what [u] held; a missing one leaves [u]
    alone. *)
Theorem X6_GetROSInt_vector_wide (U : cpp.int_type)
    (arrays : gmap string (list Z)) (key : string) (u : list Z)
    (st : State) :
  32 <= cpp.width U ->
  GetROSInt_vector U arrays key u st
  = (Ok (match arrays !! key with
         | Some param => Some (map (cpp.cast U) param ++ u)
         | None => None
         end), st).
Proof.
  intros Hw. unfold GetROSInt_vector.
  destruct (arrays !! key) as [param|]; [|reflexivity].
  unfold bind, checkRange_vector. by rewrite checkRange_from_wide.
Qed.

(** X6 for an array of unsigned 32-bit values with a negative element. *)
Lemma X6_GetROSInt_vector_wide_witness :
  GetROSInt_vector cpp.uint32_t {["rates" := [9600; -1]]} "rates" [5]
    (fresh (fun _ _ _ => true) ∅)
  = (Ok (Some [9600; 4294967295; 5]), fresh (fun _ _ _ => true) ∅).
Proof.
  exact (X6_GetROSInt_vector_wide cpp.uint32_t {["rates" := [9600; -1]]}
           "rates" [5] (fresh (fun _ _ _ => true) ∅)
           ltac:(vm_compute; discriminate)).
Defined.

(** X7: for an element type [U] narrower than [int] the check is real.  If
    every element of the array lies within the limits of [U], the array is
    put unchanged in front of what [u] held.  Otherwise the function throws
    at the first element outside the limits; nothing is stored and the state
    is as before.  The [what()] of the exception is the text written to the
    stream, the key with the index of that element and the two limits, up to
    its first NUL byte: the limits of an 8-bit [U] are written as
    characters, so for [uint8_t], whose lower limit is 0, the message ends
    at the opening bracket. *)
Theorem X7_GetROSInt_vector_narrow (U : cpp.int_type)
    (arrays : gmap string (list Z)) (key : string) (u : list Z)
    (st : State) (param : list Z) :
  0 < cpp.width U < 32 ->
  arrays !! key = Some param ->
  Forall (fun v => cpp.lowest cpp.int <= v <= cpp.max cpp.int) param ->
  (Forall (fun v => cpp.lowest U <= v <= cpp.max U) param ->
   GetROSInt_vector U arrays key u st = (Ok (Some (param ++ u)), st))
  /\ (forall good v rest,
        param = good ++ v :: rest ->
        Forall (fun v => cpp.lowest U <= v <= cpp.max U) good ->
        ~ (cpp.lowest U <= v <= cpp.max U) ->
        GetROSInt_vector U arrays key u st
        = (Throw (cpp.c_str
                    ("Invalid settings: "
                     +:+ (key +:+ "[" +:+ pretty (length good) +:+ "]")
                     +:+ " must be in range ["
                     +:+ cpp.show U (cpp.lowest U) +:+ ", "
                     +:+ cpp.show U (cpp.max U) +:+ "].")), st)).
Proof.
  intros Hw Hkey Hint. unfold GetROSInt_vector. rewrite Hkey.
  unfold checkRange_vector, bind. split.
  - intros Hall.
    assert (Hmap : map (cpp.cast U) param = param).
    { clear -Hall Hw. induction Hall as [|v l Hv Hl IH]; [done|].
      cbn [map]. rewrite cast_id by lia. by rewrite IH. }
    pose proof (checkRange_from_narrow U 0 param [] key st Hw Hall) as Hok.
    rewrite app_nil_r in Hok. by rewrite Hmap, Hok.
  - intros good v rest -> Hgood Hv.
    rewrite checkRange_from_narrow by done.
    cbn [checkRange_from]. unfold bind.
    apply Forall_app in Hint as [_ Hint]. apply Forall_cons in Hint as [Hi _].
    rewrite checkRange_as_narrow by done.
    assert (Hout : (v <? cpp.lowest U) || (v >? cpp.max U) = true).
    { apply orb_true_iff.
      destruct (Z.ltb_spec v (cpp.lowest U)); [by left|right].
      apply Z.gtb_lt. lia. }
    by rewrite Hout.
Qed.

(** X7 for an array of unsigned 16-bit values, all in range and with one
    element too large, and for an array of unsigned 8-bit values with one
    element too large. *)
Lemma X7_GetROSInt_vector_narrow_witness :
  GetROSInt_vector cpp.uint16_t {["ports" := [2000; 28784]]} "ports" []
    (fresh (fun _ _ _ => true) ∅)
  = (Ok (Some [2000; 28784]), fresh (fun _ _ _ => true) ∅)
  /\ GetROSInt_vector cpp.uint16_t {["ports" := [2000; 70000; -1]]} "ports" []
       (fresh (fun _ _ _ => true) ∅)
     = (Throw "Invalid settings: ports[1] must be in range [0, 65535].",
        fresh (fun _ _ _ => true) ∅)
  /\ GetROSInt_vector cpp.uint8_t {["bits" := [8; 300]]} "bits" []
       (fresh (fun _ _ _ => true) ∅)
     = (Throw "Invalid settings: bits[1] must be in range [",
        fresh (fun _ _ _ => true) ∅).
Proof.
  split; [|split].
  - apply (proj1 (X7_GetROSInt_vector_narrow cpp.uint16_t
                    {["ports" := [2000; 28784]]} "ports" []
                    (fresh (fun _ _ _ => true) ∅) [2000; 28784]
                    ltac:(vm_compute; split; reflexivity) eq_refl
                    ltac:(repeat constructor; vm_compute; discriminate))).
    repeat constructor; vm_compute; discriminate.
  - apply (proj2 (X7_GetROSInt_vector_narrow cpp.uint16_t
                    {["ports" := [2000; 70000; -1]]} "ports" []
                    (fresh (fun _ _ _ => true) ∅) [2000; 70000; -1]
                    ltac:(vm_compute; split; reflexivity) eq_refl
                    ltac:(repeat constructor; vm_compute; discriminate))
             [2000] 70000 [-1] eq_refl).
    + repeat constructor; vm_compute; discriminate.
    + vm_compute. intros [_ H]. by apply H.
  - apply (proj2 (X7_GetROSInt_vector_narrow cpp.uint8_t
                    {["bits" := [8; 300]]} "bits" []
                    (fresh (fun _ _ _ => true) ∅) [8; 300]
                    ltac:(vm_compute; split; reflexivity) eq_refl
                    ltac:(repeat constructor; vm_compute; discriminate))
             [8] 300 [] eq_refl).
    + repeat constructor; vm_compute; discriminate.
    + vm_compute. intros [_ H]. by apply H.
Defined.

(** ** Invariants of a running node *)

Section invariants.

Lemma filter_advertises_one (T T' t : string) (q : Z) :
  filter (advertises T') [EAdvertise T t q]
  = if bool_decide (T = T') then [EAdvertise T t q] else [].
Proof.
  rewrite filter_cons, filter_nil. cbn [advertises].
  by destruct (bool_decide (T = T')).
Qed.

Lemma publish_agree (T : string) (m : Message) (topic : string) (st : State) :
  publishers_agree st -> publishers_agree (publish T m topic st).2.
Proof.
  intros [Hadv Hpub]. rewrite publish_eq. cbn [snd].
  destruct (publishers st !! T) as [p|] eqn:HT; split; cbn.
  - intros T'. rewrite filter_app, Hadv. apply app_nil_r.
  - intros T' t m' [Hin | Hin%list_elem_of_singleton]%elem_of_app; [eauto|].
    by injection Hin as -> -> ->.
  - intros T'. rewrite !filter_app, Hadv, filter_advertises_one.
    rewrite app_nil_r. destruct (decide (T = T')) as [<- | Hne].
    + by rewrite bool_decide_eq_true_2, HT, lookup_insert_eq.
    + rewrite bool_decide_eq_false_2, lookup_insert_ne by done.
      apply app_nil_r.
  - intros T' t m' Hin. rewrite <- app_assoc in Hin.
    apply elem_of_app in Hin as [Hin | Hin].
    + assert (T <> T') by (intros ->; apply Hpub in Hin; congruence).
      rewrite lookup_insert_ne by done. eauto.
    + apply elem_of_cons in Hin as [Hin | Hin%list_elem_of_singleton];
        [discriminate Hin|].
      injection Hin as -> -> ->. apply lookup_insert_eq.
Qed.

Lemma invoke_all_agree (invs : list (Callback * Message)) (st : State) :
  publishers_agree st -> publishers_agree (invoke_all invs st).2.
Proof.
  revert st. induction invs as [|[[T topic] m] invs IH]; intros st Hst;
    [done|].
  cbn [invoke_all invoke]. unfold bind.
  pose proof (publish_agree T m topic st Hst) as H1.
  rewrite publish_eq in H1 |- *. by apply IH.
Qed.

Lemma run_op_agree (op : Op) (st : State) :
  publishers_agree st -> publishers_agree (run_op op st).2.
Proof.
  intros Hst.
  assert (Hcase : (exists key m, op = OpHandle key m)
                  \/ forall key m, op <> OpHandle key m)
    by (destruct op; eauto).
  destruct Hcase as [(key & m & ->) | Hno].
  - cbn [run_op]. unfold handle, bind, gets. cbn beta iota.
    by apply invoke_all_agree.
  - destruct (run_op_effect op st)
      as (_ & _ & _ & _ & events & Htr & _ & _ & Hquiet).
    destruct (Hquiet Hno) as (Hsame & Hnopub & Hnoadv).
    destruct Hst as [Hadv Hpub]. split.
    + intros T. by rewrite Htr, filter_app, Hnoadv, app_nil_r, Hsame.
    + intros T t m Hin. rewrite Htr in Hin. rewrite Hsame.
      apply elem_of_app in Hin as [Hin | Hin]; [eauto|].
      assert (Hf : EPublish T t m ∈ filter is_publish events)
        by (by apply list_elem_of_filter).
      rewrite Hnopub in Hf. by apply elem_of_nil in Hf.
Qed.

Lemma run_ops_agree (ops : list Op) (st : State) :
  publishers_agree st -> publishers_agree (run_ops ops st).
Proof.
  revert st. induction ops as [|op ops IH]; intros st Hst; [done|].
  cbn [run_ops]. by apply IH, run_op_agree.
Qed.

End invariants.

(** X11: on a node run from the start, whatever operations follow and
    whatever messages are handled, a message type is advertised at most
    once, every publication of a type is on the topic the type was
    advertised on, and so no two publications of one type are ever on
    different topics. *)
Theorem X11_one_topic_per_type
    (outcome : nat -> string -> Z -> bool) (params : ros.param_server)
    (ops : list Op) :
  let st := run_ops ops (fresh outcome params) in
  (forall T, (length (filter (advertises T) (trace st)) <= 1)%nat)
  /\ (forall T t m,
        EPublish T t m ∈ trace st -> EAdvertise T t ROSQueueSize ∈ trace st)
  /\ (forall T t t' m m',
        EPublish T t m ∈ trace st -> EPublish T t' m' ∈ trace st -> t = t').
Proof.
  intros st.
  assert (Hst : publishers_agree st).
  { apply run_ops_agree. split; [done|]. by intros T t m ?%elem_of_nil. }
  destruct Hst as [Hadv Hpub]. split; [|split].
  - intros T. rewrite Hadv. destruct (publishers st !! T); cbn; lia.
  - intros T t m Hin. apply Hpub in Hin.
    assert (Hf : EAdvertise T t ROSQueueSize
                 ∈ filter (advertises T) (trace st))
      by (rewrite Hadv, Hin; apply list_elem_of_singleton; done).
    by apply list_elem_of_filter in Hf as [_ Hf].
  - intros T t t' m m' H1 H2. apply Hpub in H1, H2. congruence.
Qed.

(** X12: no operation of the node starts the reconnect timer.  A timer that
    is not running stays that way through any sequence of operations, and a
    timer period elapsing afterwards changes nothing; in particular the
    timer of a node run from the start never runs. *)
Theorem X12_timer_is_never_started (ops : list Op) (st : State) :
  ros.running (reconnect_timer_ st) = false ->
  ros.running (reconnect_timer_ (run_ops ops st)) = false
  /\ timer_fires (run_ops ops st) = (Ok tt, run_ops ops st).
Proof.
  intros Hrest.
  assert (H : ros.running (reconnect_timer_ (run_ops ops st)) = false).
  { revert st Hrest. induction ops as [|op ops IH]; intros st Hrest; [done|].
    cbn [run_ops]. apply IH.
    destruct (run_op_effect op st) as (_ & _ & Hstart & _).
    destruct (ros.running (reconnect_timer_ (run_op op st).2)); [|done].
    by rewrite Hstart in Hrest. }
  split; [exact H|]. by rewrite timer_fires_eq, H.
Qed.

(** X12 on a node run from the start. *)
Lemma X12_timer_is_never_started_witness :
  let st := run_ops [OpGetROSParams; OpInitializeIO; OpSubscribe;
                     OpReconnect]
              (fresh (fun _ _ _ => false) ∅) in
  timer_fires st = (Ok tt, st).
Proof.
  intros st.
  exact (proj2 (X12_timer_is_never_started
                  [OpGetROSParams; OpInitializeIO; OpSubscribe; OpReconnect]
                  (fresh (fun _ _ _ => false) ∅) eq_refl)).
Defined.

(** X13: once the parameters are read, every serial attempt of the node,
    from [InitializeIO], from [Reconnect] or from the timer, is made on the
    same device and at the same baud rate: those the node holds.  No
    operation other than [GetROSParams] changes them. *)
Theorem X13_attempts_use_the_configured_port (ops : list Op) (st : State) :
  OpGetROSParams ∉ ops ->
  device_ (run_ops ops st) = device_ st
  /\ baudrate_ (run_ops ops st) = baudrate_ st
  /\ exists events,
       trace (run_ops ops st) = trace st ++ events
       /\ forall e, e ∈ events -> is_serial_attempt e = true ->
            exists opened,
              e = EInitializeSerial (device_ st) (baudrate_ st) opened.
Proof.
  revert st. induction ops as [|op ops IH]; intros st Hno.
  - cbn. split; [done|]. split; [done|]. exists [].
    split; [by rewrite app_nil_r|]. by intros e ?%elem_of_nil.
  - apply not_elem_of_cons in Hno as [Hop Hno]. cbn [run_ops].
    destruct (run_op_effect op st)
      as (_ & _ & _ & Hport & ev1 & Htr1 & _ & Hev1 & _).
    destruct (Hport ltac:(congruence)) as [Hd Hb].
    destruct (IH (run_op op st).2 Hno) as (Hd' & Hb' & ev2 & Htr2 & Hev2).
    split; [congruence|]. split; [congruence|].
    exists (ev1 ++ ev2). split; [by rewrite Htr2, Htr1, app_assoc|].
    intros e [Hin | Hin]%elem_of_app Hs; [eauto|].
    rewrite <- Hd, <- Hb. eauto.
Qed.

(** X13 on the constructor's serial attempt followed by a reconnect. *)
Lemma X13_attempts_use_the_configured_port_witness :
  let st := (GetROSParams (fresh (fun _ _ _ => false) ∅)).2 in
  trace (run_ops [OpInitializeIO; OpSubscribe; OpReconnect] st)
  = [EInitializeSerial "/dev/ttyACM0" 115200 false;
     EInitializeSerial "/dev/ttyACM0" 115200 false]
  /\ device_ (run_ops [OpInitializeIO; OpSubscribe; OpReconnect] st)
     = "/dev/ttyACM0".
Proof.
  intros st.
  destruct (X13_attempts_use_the_configured_port
              [OpInitializeIO; OpSubscribe; OpReconnect] st) as (Hd & _).
  - intros Hin. repeat (apply elem_of_cons in Hin as [Hin | Hin];
                        [discriminate Hin|]).
    by apply elem_of_nil in Hin.
  - split; [reflexivity | exact Hd].
Defined.

(** ** Subscribing more than once, and handling messages *)

Section handling.

Lemma Subscribe_repeat (n : nat) (st : State) :
  gpgga_enabled st = true ->
  let st' := run_ops (repeat OpSubscribe n) st in
  io_comm_mosaic.handlers_ (IO st')
  = io_comm_mosaic.handlers_ (IO st)
    ++ repeat ("$GPGGA", bind_publish Gpgga "/gpgga") n
  /\ trace st' = trace st /\ publishers st' = publishers st.
Proof.
  revert st. induction n as [|n IH]; intros st Hon.
  - cbn. by rewrite app_nil_r.
  - cbn [repeat run_ops run_op]. rewrite Subscribe_eq, Hon. cbn [snd].
    set (st1 := set_IO _ _).
    destruct (IH st1 Hon) as (Hh & Htr & Hpub).
    rewrite Hh, Htr, Hpub. subst st1. cbn. unfold io_comm_mosaic.insert.
    by rewrite <- app_assoc.
Qed.

Lemma invoke_repeat (n : nat) (T topic t : string) (m : Message)
    (st : State) :
  publishers st !! T = Some t ->
  trace (invoke_all (repeat (bind_publish T topic, m) n) st).2
  = trace st ++ repeat (EPublish T t m) n.
Proof.
  revert st. induction n as [|n IH]; intros st Hpub.
  - cbn. by rewrite app_nil_r.
  - cbn [repeat invoke_all invoke]. unfold bind.
    rewrite publish_eq, Hpub. rewrite IH by done. cbn.
    by rewrite <- app_assoc.
Qed.

Lemma dispatch_repeat (n : nat) (key : string) (h : Callback) (m : Message) :
  io_comm_mosaic.dispatch key m (repeat (key, h) n) = repeat (h, m) n.
Proof.
  unfold io_comm_mosaic.dispatch. induction n as [|n IH]; [done|].
  cbn. rewrite decide_True by done. cbn. by rewrite IH.
Qed.

End handling.

(** X8: [Subscribe] is not idempotent.  With GPGGA publishing enabled, each
    call adds one more handler for ["$GPGGA"], and a message handled after
    [n + 1] calls is advertised once and then published [n + 1] times on
    ["/gpgga"]. *)
Theorem X8_subscribing_again_duplicates (n : nat) (st : State)
    (m : Message) :
  gpgga_enabled st = true ->
  io_comm_mosaic.handlers_ (IO st) = [] ->
  publishers st !! Gpgga = None ->
  let st' := run_ops (repeat OpSubscribe (S n)) st in
  io_comm_mosaic.count "$GPGGA" (io_comm_mosaic.handlers_ (IO st')) = S n
  /\ (handle "$GPGGA" m st').1 = Ok tt
  /\ trace (handle "$GPGGA" m st').2
     = trace st ++ EAdvertise Gpgga "/gpgga" ROSQueueSize
                   :: repeat (EPublish Gpgga "/gpgga" m) (S n).
Proof.
  intros Hon Hnone Hpub st'.
  destruct (Subscribe_repeat (S n) st Hon) as (Hh & Htr & Hp).
  fold st' in Hh, Htr, Hp. rewrite Hnone, app_nil_l in Hh.
  assert (Hd : io_comm_mosaic.dispatch "$GPGGA" m
                 (io_comm_mosaic.get_handlers (IO st'))
               = repeat (bind_publish Gpgga "/gpgga", m) (S n)).
  { unfold io_comm_mosaic.get_handlers. by rewrite Hh, dispatch_repeat. }
  clearbody st'. split; [|split].
  - unfold io_comm_mosaic.count. rewrite Hh.
    generalize (S n). intros k. induction k as [|k IH]; [done|].
    cbn. rewrite decide_True by done. cbn. by rewrite IH.
  - unfold handle, bind, gets. cbn beta iota.
    by destruct (invoke_all_effect
                   (io_comm_mosaic.dispatch "$GPGGA" m
                      (io_comm_mosaic.get_handlers (IO st'))) st')
      as (Hok & _).
  - unfold handle, bind, gets. cbn beta iota. rewrite Hd.
    cbn [repeat invoke_all invoke]. unfold bind at 1.
    rewrite publish_eq, Hp, Hpub. rewrite (invoke_repeat n _ _ "/gpgga").
    + cbn. rewrite Htr, <- !app_assoc. reflexivity.
    + cbn. apply lookup_insert_eq.
Qed.

(** X8 for two calls. *)
Lemma X8_subscribing_again_duplicates_witness :
  let st := run_ops [OpSubscribe; OpSubscribe] (fresh (fun _ _ _ => true) ∅) in
  trace (handle "$GPGGA" "fix" st).2
  = [EAdvertise Gpgga "/gpgga" 1; EPublish Gpgga "/gpgga" "fix";
     EPublish Gpgga "/gpgga" "fix"].
Proof.
  intros st.
  exact (proj2 (proj2 (X8_subscribing_again_duplicates 1
                         (fresh (fun _ _ _ => true) ∅) "fix"
                         eq_refl eq_refl eq_refl))).
Defined.


(** X10: the scalar form of [GetROSInt] checks nothing for any integer
    type, narrow ones included: the value is converted to [U] before it is
    compared with the limits of [U], so the function never throws and a
    parameter that [U] cannot hold is stored reduced to the range of [U].
    A missing parameter gives [false] and stores nothing. *)
Theorem X10_GetROSInt_never_rejects (U : cpp.int_type) (key : string)
    (st : State) :
  0 < cpp.width U ->
  GetROSInt U key st
  = (Ok (cpp.cast U <$> ros.getParam_int (nh st) key), st)
  /\ (forall v, ros.getParam_int (nh st) key = Some v ->
        cpp.lowest U <= cpp.cast U v <= cpp.max U
        /\ (cpp.cast U v - v) mod 2 ^ cpp.width U = 0).
Proof.
  intros Hw. split.
  - destruct (ros.getParam_int (nh st) key) as [param|] eqn:Hget.
    + by rewrite (GetROSInt_found U key st param).
    + by rewrite GetROSInt_not_found.
  - intros v _. split; [by apply cast_in_range|].
    unfold cpp.cast. destruct (cpp.is_signed U).
    + replace ((v + 2 ^ (cpp.width U - 1)) mod 2 ^ cpp.width U
               - 2 ^ (cpp.width U - 1) - v)
        with ((v + 2 ^ (cpp.width U - 1)) mod 2 ^ cpp.width U
              - (v + 2 ^ (cpp.width U - 1))) by lia.
      rewrite Zminus_mod, Zmod_mod, <- Zminus_mod.
      by rewrite Z.sub_diag.
    + rewrite Zminus_mod, Zmod_mod, <- Zminus_mod. by rewrite Z.sub_diag.
Qed.

(** X10 for an 8-bit unsigned parameter set to 300. *)
Lemma X10_GetROSInt_never_rejects_witness :
  let st := fresh (fun _ _ _ => true) {["serial/bits" := ros.TypeInt 300]} in
  GetROSInt cpp.uint8_t "serial/bits" st = (Ok (Some 44), st).
Proof.
  intros st.
  exact (proj1 (X10_GetROSInt_never_rejects cpp.uint8_t "serial/bits" st
                  ltac:(reflexivity))).
Defined.

(** ** The clock *)

(** X14: [defaultGetTimeHandler] returns a whole number of seconds between
    0 and 86399: the seconds elapsed since midnight with the fraction
    dropped, although the clock read has microsecond resolution.  It is the
    count of elapsed seconds taken modulo one day, so two readings within
    the same second give the same result. *)
Theorem X14_time_of_day_in_seconds (present_time : Z) :
  0 <= defaultGetTimeHandler present_time <= 86399
  /\ defaultGetTimeHandler present_time
     = (present_time / 1000000) mod 86400
  /\ (forall other,
        present_time / 1000000 = other / 1000000 ->
        defaultGetTimeHandler other = defaultGetTimeHandler present_time).
Proof.
  assert (H : forall t, defaultGetTimeHandler t = (t / 1000000) mod 86400).
  { intros t. unfold defaultGetTimeHandler, boost.total_seconds,
      boost.time_of_day, boost.ticks_per_day, boost.ticks_per_second.
    pose proof (Z.mod_pos_bound t (86400 * 1000000) ltac:(lia)).
    rewrite Z.quot_div_nonneg by lia.
    replace (86400 * 1000000) with (1000000 * 86400) by lia.
    rewrite Z.rem_mul_r by lia.
    rewrite (Z.mul_comm 1000000), Z.div_add by lia.
    rewrite Z.mod_div by lia. lia. }
  split; [|split].
  - rewrite H. pose proof (Z.mod_pos_bound (present_time / 1000000) 86400).
    lia.
  - apply H.
  - intros other Heq. by rewrite !H, Heq.
Qed.
